(** * Memoria: the hybrid memory subsystem

    A shallow embedding of [Memoria/memory]: the gating policy
    ([policy/default_policy.py]), the two SQLite stores
    ([store/episodic_store.py], [store/semantic_store.py]), the FAISS wrapper
    ([vector_index.py]) and the coordinator ([Manager.py]).

    Python objects are modelled as follows.
    - [str] is a list of Unicode code points ([list N]); [len] is [length].
    - [int] is [Z].
    - A [dict] that is iterated ([key_to_id]) is an insertion-ordered
      association list; a dict that is only looked up ([id_to_key]) is a
      [gmap].
    - A numpy array is a reference to a buffer in a heap, so that views made
      by [reshape] alias the array they come from.
    - Methods run in a state-and-exception monad: a raised exception keeps
      the mutations made before it. *)

From Stdlib Require Import ZArith QArith List Bool Lia String Ascii Permutation.
From Stdlib Require DecimalPos.
From Stdlib Require Import Sorted.
From stdpp Require Import gmap list.

Open Scope Z_scope.

(** ** Python strings *)

Abbreviation pystr := (list N).

Definition py (s : string) : pystr := map N_of_ascii (list_ascii_of_string s).

Definition colon : N := 58%N.

(** [str.isspace] for one code point: what [str.strip()] and [int()] remove. *)
Definition is_space (c : N) : bool :=
  ((9 <=? c) && (c <=? 13) || (28 <=? c) && (c <=? 32) || (c =? 133) || (c =? 160)
   || (c =? 5760) || (8192 <=? c) && (c <=? 8202) || (c =? 8232) || (c =? 8233)
   || (c =? 8239) || (c =? 8287) || (c =? 12288))%N.

Fixpoint lstrip (s : pystr) : pystr :=
  match s with
  | c :: s' => if is_space c then lstrip s' else s
  | [] => []
  end.

Definition strip (s : pystr) : pystr := rev (lstrip (rev (lstrip s))).

Definition str_eqb (a b : pystr) : bool := bool_decide (a = b).

Fixpoint startswith (s p : pystr) {struct p} : bool :=
  match p, s with
  | [], _ => true
  | c :: p', d :: s' => (c =? d)%N && startswith s' p'
  | _ :: _, [] => false
  end.

(** [s.split(sep)] for a one-character separator: never the empty list. *)
Fixpoint split (sep : N) (s : pystr) : list pystr :=
  match s with
  | [] => [[]]
  | c :: s' =>
      if (c =? sep)%N then [] :: split sep s'
      else match split sep s' with
           | p :: ps => (c :: p) :: ps
           | [] => [[c]]
           end
  end.

Fixpoint uint_digits (u : Decimal.uint) : pystr :=
  match u with
  | Decimal.Nil => []
  | Decimal.D0 u => 48%N :: uint_digits u
  | Decimal.D1 u => 49%N :: uint_digits u
  | Decimal.D2 u => 50%N :: uint_digits u
  | Decimal.D3 u => 51%N :: uint_digits u
  | Decimal.D4 u => 52%N :: uint_digits u
  | Decimal.D5 u => 53%N :: uint_digits u
  | Decimal.D6 u => 54%N :: uint_digits u
  | Decimal.D7 u => 55%N :: uint_digits u
  | Decimal.D8 u => 56%N :: uint_digits u
  | Decimal.D9 u => 57%N :: uint_digits u
  end.

(** [str(n)], as the f-string of [_make_key] renders an [int]. *)
Definition str_of_int (n : Z) : pystr :=
  match Z.to_int n with
  | Decimal.Pos u => uint_digits u
  | Decimal.Neg u => 45%N :: uint_digits u
  end.

(** ** Exceptions and the method monad *)

Inductive exn : Set :=
  | KeyError
  | IndexError
  | ValueError
  | AssertionError
  | StorageFailure      (* sqlite3.Error out of aiosqlite *)
  | EmbeddingFailure.   (* the embeddings endpoint raised or timed out *)

Inductive outcome (A : Type) : Type :=
  | Returned (a : A)
  | Raised (e : exn).

Arguments Returned {A} a.
Arguments Raised {A} e.

Definition M (S A : Type) : Type := S -> outcome A * S.

Definition ret {S A : Type} (a : A) : M S A := fun s => (Returned a, s).

Definition raise {S A : Type} (e : exn) : M S A := fun s => (Raised e, s).

Definition bind {S A B : Type} (m : M S A) (k : A -> M S B) : M S B :=
  fun s =>
    match m s with
    | (Returned a, s') => k a s'
    | (Raised e, s') => (Raised e, s')
    end.

Definition gets {S A : Type} (f : S -> A) : M S A := fun s => (Returned (f s), s).

Definition modify {S : Type} (f : S -> S) : M S unit := fun s => (Returned tt, f s).

Definition lift_outcome {S A : Type} (o : outcome A) : M S A := fun s => (o, s).

Notation "'let!' x ':=' m 'in' k" := (bind m (fun x => k))
  (at level 10, x pattern, m at level 100, k at level 200).
Notation "m ';;;' k" := (bind m (fun _ => k))
  (at level 100, k at level 200, right associativity).

(** ** Insertion-ordered dictionaries *)

Module Dict.

Fixpoint get {V : Type} (k : pystr) (d : list (pystr * V)) : option V :=
  match d with
  | [] => None
  | (k', v) :: d' => if str_eqb k k' then Some v else get k d'
  end.

Definition contains {V : Type} (k : pystr) (d : list (pystr * V)) : bool :=
  match get k d with Some _ => true | None => false end.

(** [d[k] = v]: an existing key keeps its position, a new key goes last. *)
Fixpoint set {V : Type} (k : pystr) (v : V) (d : list (pystr * V)) : list (pystr * V) :=
  match d with
  | [] => [(k, v)]
  | (k', v') :: d' => if str_eqb k k' then (k', v) :: d' else (k', v') :: set k v d'
  end.

(** [del d[k]] for a key that is present. *)
Fixpoint del {V : Type} (k : pystr) (d : list (pystr * V)) : list (pystr * V) :=
  match d with
  | [] => []
  | (k', v') :: d' => if str_eqb k k' then del k d' else (k', v') :: del k d'
  end.

Definition keys {V : Type} (d : list (pystr * V)) : list pystr := map fst d.

End Dict.

(** ** Collaborators outside the repository

    What FAISS, the Unicode tables of the Python runtime and the embeddings
    endpoint compute is not in the repository; the model is parametric in
    them. A float is read as the rational it denotes. *)

Class External : Type := {
  (** [faiss.normalize_L2] on one row. *)
  normalize_L2 : list Q -> list Q;
  (** the score [IndexFlatIP] gives a stored vector against a query. *)
  inner_product : list Q -> list Q -> Q;
  (** [str.lower]. *)
  str_lower : pystr -> pystr;
  (** the decimal value of a code point of category Nd, as [int()] reads it. *)
  unicode_decimal : N -> option Z;
  (** [llm.embeddings.create(...).data[0].embedding]; [None] when the call
      raises or times out. *)
  embeddings_create : pystr -> option (list Q);
}.

(** ** The data model *)

(** [faiss.IndexIDMap2(faiss.IndexFlatIP(dim))] keeps every vector ever added,
    with the id it was added under; [id_to_key] and [key_to_id] are the two
    dictionaries of the wrapper. *)
Record IndexState : Type := mkIndexState {
  dim : nat;
  index : list (Z * list Q);
  id_to_key : gmap Z pystr;
  key_to_id : list (pystr * Z);
}.

Record episodic_row : Type := mkEpisodicRow {
  e_id : Z;
  e_agent_id : pystr;
  e_content : pystr;
  e_role : pystr;
  e_timestamp : Z;
}.

Record semantic_row : Type := mkSemanticRow {
  s_id : Z;
  s_agent_id : pystr;
  s_content : pystr;
  s_metadata : pystr;
  s_timestamp : Z;
}.

(** The SQLite file both stores open. [*_seq] is the largest rowid ever
    given out by the table (AUTOINCREMENT). The [episodic_memory] table is
    created outside the repository; it is taken to be declared like
    [semantic_memory], with [role] in place of [metadata]. *)
Record Database : Type := mkDatabase {
  episodic_memory : list episodic_row;
  episodic_seq : Z;
  semantic_memory : list semantic_row;
  semantic_seq : Z;
}.

(** A numpy array object: the buffer it reads and writes, and its shape. *)
Record ndarray : Type := mkNdarray {
  buffer : positive;
  shape : list nat;
}.

(** The state a method runs in. [io_faults] schedules the storage failures:
    each store method consumes one entry when it opens its connection, and
    fails when the entry is [true]. [now] is CURRENT_TIMESTAMP. *)
Record World : Type := mkWorld {
  heap : gmap positive (list Q);
  vector_index : IndexState;
  db : Database;
  now : Z;
  io_faults : list bool;
}.

Definition set_heap (h : gmap positive (list Q)) (w : World) : World :=
  mkWorld h (vector_index w) (db w) (now w) (io_faults w).

Definition set_vector_index (vi : IndexState) (w : World) : World :=
  mkWorld (heap w) vi (db w) (now w) (io_faults w).

Definition set_db (d : Database) (w : World) : World :=
  mkWorld (heap w) (vector_index w) d (now w) (io_faults w).

Definition set_io_faults (fs : list bool) (w : World) : World :=
  mkWorld (heap w) (vector_index w) (db w) (now w) fs.

Definition set_id_to_key (m : gmap Z pystr) (vi : IndexState) : IndexState :=
  mkIndexState (dim vi) (index vi) m (key_to_id vi).

Definition set_key_to_id (d : list (pystr * Z)) (vi : IndexState) : IndexState :=
  mkIndexState (dim vi) (index vi) (id_to_key vi) d.

Definition set_index (ix : list (Z * list Q)) (vi : IndexState) : IndexState :=
  mkIndexState (dim vi) ix (id_to_key vi) (key_to_id vi).

(** A result row, as the dict a store returns. *)
Inductive memory_item : Type :=
  | EpisodicItem (id : Z) (content role : pystr) (timestamp : Z)
  | SemanticItem (id : Z) (content metadata : pystr) (timestamp : Z).

(** ** numpy and FAISS *)

Module Np.

(** [a.reshape(1, -1)] of a one-dimensional array: a view on the same buffer. *)
Definition reshape_row (a : ndarray) : M World ndarray :=
  fun w =>
    match heap w !! buffer a with
    | Some [] => (Raised ValueError, w)
    | Some v => (Returned (mkNdarray (buffer a) [1%nat; length v]), w)
    | None => (Raised ValueError, w)
    end.

(** [np.array(values)]: a new buffer. *)
Definition array (values : list Q) : M World ndarray :=
  fun w =>
    let l := fresh (dom (heap w)) in
    (Returned (mkNdarray l [length values]), set_heap (<[l := values]> (heap w)) w).

End Np.

Module Faiss.

Section Kernel.
Context `{External}.

(** [faiss.normalize_L2(x)]: overwrites the buffer of [x]. *)
Definition normalize_L2_inplace (x : ndarray) : M World unit :=
  fun w =>
    match heap w !! buffer x with
    | Some v => (Returned tt, set_heap (<[buffer x := normalize_L2 v]> (heap w)) w)
    | None => (Raised ValueError, w)
    end.

(** [index.add_with_ids(x, np.array([i]))]: the wrapper unpacks
    [n, d = x.shape] and asserts [d == self.d], then the index copies the
    row. *)
Definition add_with_ids (x : ndarray) (i : Z) : M World unit :=
  fun w =>
    match shape x, heap w !! buffer x with
    | [_; d], Some v =>
        if Nat.eqb d (dim (vector_index w))
        then (Returned tt,
              set_vector_index (set_index (index (vector_index w) ++ [(i, v)]) (vector_index w)) w)
        else (Raised AssertionError, w)
    | _, _ => (Raised ValueError, w)
    end.

(** Ranking by decreasing score. FAISS leaves the order of equal scores
    open; here they keep the order of insertion, and no property below
    depends on that choice. *)
Fixpoint rank_insert (q : list Q) (s : Z * list Q) (l : list (Z * list Q)) : list (Z * list Q) :=
  match l with
  | [] => [s]
  | t :: l' =>
      if Qle_bool (inner_product q (snd t)) (inner_product q (snd s))
      then s :: l
      else t :: rank_insert q s l'
  end.

Definition rank (q : list Q) (l : list (Z * list Q)) : list (Z * list Q) :=
  fold_right (rank_insert q) [] l.

(** The labels of [index.search(x, n)]: the [n] best ids, then [-1] for
    the places that are left. *)
Definition labels (slots : list (Z * list Q)) (q : list Q) (n : nat) : list Z :=
  let best := map fst (take n (rank q slots)) in
  best ++ replicate (n - length best) (-1).

(** [index.search(x, n)]: the wrapper unpacks [x.shape] and asserts
    [d == self.d] and [n > 0]. *)
Definition search (x : ndarray) (n : Z) : M World (list Z) :=
  fun w =>
    match shape x, heap w !! buffer x with
    | [_; d], Some q =>
        if Nat.eqb d (dim (vector_index w)) && (0 <? n)
        then (Returned (labels (index (vector_index w)) q (Z.to_nat n)), w)
        else (Raised AssertionError, w)
    | _, _ => (Raised ValueError, w)
    end.

End Kernel.

End Faiss.

(** ** vector_index.py *)

Module VectorIndex.

Section Methods.
Context `{External}.

Definition __init__ (d : nat) : IndexState :=
  mkIndexState d [] ∅ [].

Definition _make_key (agent_id mem_type : pystr) (mem_id : Z) : pystr :=
  agent_id ++ [colon] ++ mem_type ++ [colon] ++ str_of_int mem_id.

(** The digits of [int(s)], after the sign: decimal digits, with single
    underscores between them. *)
Fixpoint int_digits (s : pystr) (acc : Z) (after_digit : bool) : option Z :=
  match s with
  | [] => if after_digit then Some acc else None
  | c :: s' =>
      if (c =? 95)%N then (if after_digit then int_digits s' acc false else None)
      else match unicode_decimal c with
           | Some d => int_digits s' (10 * acc + d) true
           | None => None
           end
  end.

(** [int(s)] for a [str]. *)
Definition int_of_str (s : pystr) : outcome Z :=
  let t := strip s in
  let r := match t with
           | 43%N :: u => int_digits u 0 false
           | 45%N :: u => Z.opp <$> int_digits u 0 false
           | _ => int_digits t 0 false
           end in
  match r with
  | Some n => Returned n
  | None => Raised ValueError
  end.

Definition _parse_key (key : pystr) : outcome (pystr * pystr * Z) :=
  let parts := split colon key in
  match parts !! 0%nat with
  | None => Raised IndexError
  | Some p0 =>
      match parts !! 1%nat with
      | None => Raised IndexError
      | Some p1 =>
          match parts !! 2%nat with
          | None => Raised IndexError
          | Some p2 =>
              match int_of_str p2 with
              | Returned n => Returned (p0, p1, n)
              | Raised e => Raised e
              end
          end
      end
  end.

Definition remove_by_key (key : pystr) : M World unit :=
  fun w =>
    let vi := vector_index w in
    match Dict.get key (key_to_id vi) with
    | Some faiss_id =>
        let vi1 := set_key_to_id (Dict.del key (key_to_id vi)) vi in
        match id_to_key vi1 !! faiss_id with
        | Some _ =>
            (Returned tt,
             set_vector_index (set_id_to_key (delete faiss_id (id_to_key vi1)) vi1) w)
        | None => (Raised KeyError, set_vector_index vi1 w)
        end
    | None => (Returned tt, w)
    end.

Definition add (agent_id mem_type : pystr) (mem_id : Z) (embedding : ndarray) : M World unit :=
  let key := _make_key agent_id mem_type mem_id in
  (let! present := gets (fun w => Dict.contains key (key_to_id (vector_index w))) in
   if present then remove_by_key key else ret tt) ;;;
  let! faiss_id := gets (fun w => Z.of_nat (size (id_to_key (vector_index w)))) in
  modify (fun w =>
    set_vector_index (set_id_to_key (<[faiss_id := key]> (id_to_key (vector_index w)))
                        (vector_index w)) w) ;;;
  modify (fun w =>
    set_vector_index (set_key_to_id (Dict.set key faiss_id (key_to_id (vector_index w)))
                        (vector_index w)) w) ;;;
  let! emb_2d := Np.reshape_row embedding in
  Faiss.normalize_L2_inplace emb_2d ;;;
  Faiss.add_with_ids emb_2d faiss_id.

(** The loop of [search] over the labels [I[0]]. *)
Fixpoint search_loop (id_to_key : gmap Z pystr) (agent_id : pystr) (k : Z)
    (labels : list Z) (results : list Z) : outcome (list Z) :=
  match labels with
  | [] => Returned results
  | idx :: rest =>
      if idx =? -1 then search_loop id_to_key agent_id k rest results
      else
        match id_to_key !! idx with
        | None | Some [] => search_loop id_to_key agent_id k rest results
        | Some key =>
            match _parse_key key with
            | Raised e => Raised e
            | Returned (aid, mtype, mid) =>
                if str_eqb aid agent_id && str_eqb mtype (py "semantic")
                then
                  let results' := results ++ [mid] in
                  if Z.of_nat (length results') >=? k then Returned results'
                  else search_loop id_to_key agent_id k rest results'
                else search_loop id_to_key agent_id k rest results
            end
        end
  end.

Definition search (agent_id : pystr) (query_emb : ndarray) (k : Z) : M World (list Z) :=
  let! query_2d := Np.reshape_row query_emb in
  Faiss.normalize_L2_inplace query_2d ;;;
  let! I0 := Faiss.search query_2d (k * 3) in
  let! id_to_key := gets (fun w => id_to_key (vector_index w)) in
  lift_outcome (search_loop id_to_key agent_id k I0 []).

Definition remove (agent_id mem_type : pystr) (mem_id : Z) : M World unit :=
  remove_by_key (_make_key agent_id mem_type mem_id).

(** The [for] loop of [clear_agent]. *)
Fixpoint remove_each (keys : list pystr) : M World unit :=
  match keys with
  | [] => ret tt
  | k :: rest => remove_by_key k ;;; remove_each rest
  end.

Definition clear_agent (agent_id : pystr) : M World unit :=
  let! keys_to_remove :=
    gets (fun w => filter (fun k => startswith k (agent_id ++ [colon]) = true)
                     (Dict.keys (key_to_id (vector_index w)))) in
  remove_each keys_to_remove.

End Methods.

End VectorIndex.

(** ** SQLite, as far as the stores use it *)

Module Sql.

(** Opening the connection of a store method. A scheduled fault makes the
    method raise before any statement has run. *)
Definition connect : M World unit :=
  fun w =>
    match io_faults w with
    | [] => (Returned tt, w)
    | false :: fs => (Returned tt, set_io_faults fs w)
    | true :: fs => (Raised StorageFailure, set_io_faults fs w)
    end.

(** LIKE folds the case of ASCII letters only. *)
Definition fold_case (c : N) : N :=
  if ((65 <=? c) && (c <=? 90))%N then (c + 32)%N else c.

(** SQLite reads the two operands of LIKE as C strings: each ends at its
    first NUL character, whatever follows it in the stored text. *)
Fixpoint until_nul (s : pystr) : pystr :=
  match s with
  | [] => []
  | c :: s' => if (c =? 0)%N then [] else c :: until_nul s'
  end.

(** The comparison of a pattern with a text, with [%] and [_] as wildcards
    and no escape character. *)
Fixpoint pattern_compare (p s : pystr) : bool :=
  match p with
  | [] => match s with [] => true | _ :: _ => false end
  | c :: p' =>
      if (c =? 37)%N
      then (fix any (t : pystr) : bool :=
              pattern_compare p' t || match t with [] => false | _ :: t' => any t' end) s
      else match s with
           | [] => false
           | d :: s' =>
               ((c =? 95)%N || (fold_case c =? fold_case d)%N) && pattern_compare p' s'
           end
  end.

(** [s LIKE p]. The limit SQLite puts on the length of a pattern (50000
    bytes, beyond which the statement raises) is not modelled. *)
Definition like (p s : pystr) : bool := pattern_compare (until_nul p) (until_nul s).

(** [LIMIT n]: a negative [n] is no limit. *)
Definition limit {A : Type} (n : Z) (rows : list A) : list A :=
  if n <? 0 then rows else take (Z.to_nat n) rows.

(** [ORDER BY key DESC]; rows with equal keys stay in rowid order. *)
Fixpoint order_insert {A : Type} (key : A -> Z) (r : A) (l : list A) : list A :=
  match l with
  | [] => [r]
  | t :: l' => if key r <=? key t then t :: order_insert key r l' else r :: l
  end.

Definition order_by_desc {A : Type} (key : A -> Z) (rows : list A) : list A :=
  fold_right (order_insert key) [] rows.

End Sql.

(** ** store/episodic_store.py *)

Module EpisodicStore.

Definition set_rows (rows : list episodic_row) (d : Database) : Database :=
  mkDatabase rows (episodic_seq d) (semantic_memory d) (semantic_seq d).

Definition to_dict (r : episodic_row) : memory_item :=
  EpisodicItem (e_id r) (e_content r) (e_role r) (e_timestamp r).

Definition owned (agent_id : pystr) (r : episodic_row) : bool := str_eqb (e_agent_id r) agent_id.

Definition insert (agent_id content role : pystr) : M World Z :=
  Sql.connect ;;;
  fun w =>
    let d := db w in
    let rowid := episodic_seq d + 1 in
    let row := mkEpisodicRow rowid agent_id content role (now w) in
    (Returned rowid,
     set_db (mkDatabase (episodic_memory d ++ [row]) rowid (semantic_memory d) (semantic_seq d)) w).

Definition get_by_id (agent_id : pystr) (mem_id : Z) : M World (option memory_item) :=
  Sql.connect ;;;
  let! rows := gets (fun w =>
    filter (fun r => (e_id r =? mem_id) && owned agent_id r = true) (episodic_memory (db w))) in
  ret (to_dict <$> head rows).

Definition update_content (agent_id : pystr) (mem_id : Z) (new_content : pystr) : M World bool :=
  Sql.connect ;;;
  fun w =>
    let hit r := (e_id r =? mem_id) && owned agent_id r in
    let rows := episodic_memory (db w) in
    let total_changes := length (filter (fun r => hit r = true) rows) in
    let rows' := map (fun r => if hit r
                               then mkEpisodicRow (e_id r) (e_agent_id r) new_content
                                      (e_role r) (e_timestamp r)
                               else r) rows in
    (Returned (0 <? Z.of_nat total_changes), set_db (set_rows rows' (db w)) w).

Definition delete_by_id (agent_id : pystr) (mem_id : Z) : M World bool :=
  Sql.connect ;;;
  fun w =>
    let hit r := (e_id r =? mem_id) && owned agent_id r in
    let rows := episodic_memory (db w) in
    let total_changes := length (filter (fun r => hit r = true) rows) in
    (Returned (0 <? Z.of_nat total_changes),
     set_db (set_rows (filter (fun r => hit r = false) rows) (db w)) w).

Definition list_by_agent_recent (agent_id : pystr) (limit : Z) : M World (list memory_item) :=
  Sql.connect ;;;
  let! rows := gets (fun w =>
    filter (fun r => owned agent_id r = true) (episodic_memory (db w))) in
  ret (map to_dict (Sql.limit limit (Sql.order_by_desc e_timestamp rows))).

Definition search_by_agent (agent_id query : pystr) : M World (list memory_item) :=
  Sql.connect ;;;
  let! rows := gets (fun w =>
    filter (fun r => owned agent_id r && Sql.like ([37%N] ++ query ++ [37%N]) (e_content r) = true)
      (episodic_memory (db w))) in
  ret (map to_dict (Sql.order_by_desc e_timestamp rows)).

Definition clear (agent_id : pystr) : M World Z :=
  Sql.connect ;;;
  fun w =>
    let rows := episodic_memory (db w) in
    let rowcount := length (filter (fun r => owned agent_id r = true) rows) in
    (Returned (Z.of_nat rowcount),
     set_db (set_rows (filter (fun r => owned agent_id r = false) rows) (db w)) w).

(** Modelled from the spec: [EpisodicStore.list_by_agent], which [Manager.py]
    calls and the class does not define: "list_recent(tenant, limit) ->
    sequence, newest first". It is the query of [list_by_agent_recent]. *)
Definition list_by_agent (agent_id : pystr) (limit : Z) : M World (list memory_item) :=
  list_by_agent_recent agent_id limit.

(** Modelled from the spec: [EpisodicStore.search], which [Manager.py] calls
    and the class does not define: "search(tenant, substring) -> sequence,
    newest first". It is the query of [search_by_agent]. *)
Definition search (agent_id query : pystr) : M World (list memory_item) :=
  search_by_agent agent_id query.

End EpisodicStore.

(** ** store/semantic_store.py *)

Module SemanticStore.

Definition set_rows (rows : list semantic_row) (d : Database) : Database :=
  mkDatabase (episodic_memory d) (episodic_seq d) rows (semantic_seq d).

Definition to_dict (r : semantic_row) : memory_item :=
  SemanticItem (s_id r) (s_content r) (s_metadata r) (s_timestamp r).

Definition owned (agent_id : pystr) (r : semantic_row) : bool := str_eqb (s_agent_id r) agent_id.

Definition insert (agent_id content metadata : pystr) : M World Z :=
  Sql.connect ;;;
  fun w =>
    let d := db w in
    let rowid := semantic_seq d + 1 in
    let row := mkSemanticRow rowid agent_id content metadata (now w) in
    (Returned rowid,
     set_db (mkDatabase (episodic_memory d) (episodic_seq d) (semantic_memory d ++ [row]) rowid) w).

Definition list_by_agent (agent_id : pystr) (limit : Z) : M World (list memory_item) :=
  Sql.connect ;;;
  let! rows := gets (fun w =>
    filter (fun r => owned agent_id r = true) (semantic_memory (db w))) in
  ret (map to_dict (Sql.limit limit (Sql.order_by_desc s_id rows))).

Definition get_by_ids (agent_id : pystr) (ids : list Z) : M World (list memory_item) :=
  match ids with
  | [] => ret []
  | _ :: _ =>
      Sql.connect ;;;
      let! rows := gets (fun w =>
        filter (fun r => owned agent_id r && bool_decide (s_id r ∈ ids) = true)
          (semantic_memory (db w))) in
      ret (map to_dict rows)
  end.

(** The [embedding] argument is accepted and not used. *)
Definition update_content (agent_id : pystr) (mem_id : Z) (new_content : pystr)
    (embedding : option ndarray) : M World bool :=
  Sql.connect ;;;
  fun w =>
    let hit r := (s_id r =? mem_id) && owned agent_id r in
    let rows := semantic_memory (db w) in
    let rowcount := length (filter (fun r => hit r = true) rows) in
    let rows' := map (fun r => if hit r
                               then mkSemanticRow (s_id r) (s_agent_id r) new_content
                                      (s_metadata r) (s_timestamp r)
                               else r) rows in
    (Returned (0 <? Z.of_nat rowcount), set_db (set_rows rows' (db w)) w).

Definition delete_by_id (agent_id : pystr) (mem_id : Z) : M World bool :=
  Sql.connect ;;;
  fun w =>
    let hit r := (s_id r =? mem_id) && owned agent_id r in
    let rows := semantic_memory (db w) in
    let rowcount := length (filter (fun r => hit r = true) rows) in
    (Returned (0 <? Z.of_nat rowcount),
     set_db (set_rows (filter (fun r => hit r = false) rows) (db w)) w).

(** Modelled from the spec: [SemanticStore.clear], which [Manager.py] calls
    and the class does not define: "clear(tenant) -> count", under the same
    isolation contract as the event store. It is the statement of
    [EpisodicStore.clear] on [semantic_memory]. *)
Definition clear (agent_id : pystr) : M World Z :=
  Sql.connect ;;;
  fun w =>
    let rows := semantic_memory (db w) in
    let rowcount := length (filter (fun r => owned agent_id r = true) rows) in
    (Returned (Z.of_nat rowcount),
     set_db (set_rows (filter (fun r => owned agent_id r = false) rows) (db w)) w).

(** The LIKE query of the summary table, cut by [LIMIT]; the rows come in
    rowid order, as the statement has no ORDER BY. *)
Definition search (agent_id query : pystr) (limit : Z) : M World (list memory_item) :=
  Sql.connect ;;;
  let! rows := gets (fun w =>
    filter (fun r => owned agent_id r && Sql.like ([37%N] ++ query ++ [37%N]) (s_content r) = true)
      (semantic_memory (db w))) in
  ret (map to_dict (Sql.limit limit rows)).

End SemanticStore.

(** ** policy/base.py, policy/default_policy.py *)

(** An event, as the dict [{'content': ..., 'role': ...}]. *)
Record event : Type := mkEvent {
  content : pystr;
  role : pystr;
}.

(** The policy object handed to the manager: the two abstract methods of
    [BasePolicy] and the two further ones [DefaultPolicy] defines. *)
Record BasePolicy : Type := mkPolicy {
  should_store_as_episodic : pystr -> event -> bool;
  should_summarize_to_semantic : pystr -> Z -> bool;
  get_episodic_ttl_days : pystr -> Z;
  allow_user_to_edit_memory : pystr -> pystr -> bool;
}.

Module DefaultPolicy.

Section Methods.
Context `{External}.

(** The set literal of [should_store_as_episodic]. *)
Definition stop_list : list pystr :=
  [ [21999%N]; [21734%N]; [22909%N; 30340%N]; py "hello" ].

Definition should_store_as_episodic (agent_id : pystr) (ev : event) : bool :=
  let content := strip (content ev) in
  if Z.of_nat (length content) <? 5 then false
  else if bool_decide (str_lower content ∈ stop_list) then false
  else true.

Definition should_summarize_to_semantic (agent_id : pystr) (episodic_count : Z) : bool :=
  episodic_count mod 10 =? 0.

Definition get_episodic_ttl_days (agent_id : pystr) : Z := 7.

Definition allow_user_to_edit_memory (agent_id mem_type : pystr) : bool := true.

Definition policy : BasePolicy :=
  mkPolicy should_store_as_episodic should_summarize_to_semantic
    get_episodic_ttl_days allow_user_to_edit_memory.

End Methods.

End DefaultPolicy.

(** ** processor/default_processor.py *)

Module DefaultProcessor.

Section Methods.
Context `{External}.

Definition embed (text : pystr) : M World ndarray :=
  match embeddings_create text with
  | Some values => Np.array values
  | None => raise EmbeddingFailure
  end.

End Methods.

End DefaultProcessor.

(** ** Manager.py *)

Module MemoryManager.

Section Methods.
Context `{External}.
Variable policy : BasePolicy.

Definition add_event (agent_id : pystr) (ev : event) : M World Z :=
  if negb (should_store_as_episodic policy agent_id ev) then ret (-1)
  else
    let! episodic_id := EpisodicStore.insert agent_id (content ev) (role ev) in
    ret episodic_id.

Definition list_recent_memories (agent_id : pystr) (limit : Z) : M World (list memory_item) :=
  let! episodic := EpisodicStore.list_by_agent agent_id limit in
  let! semantic := SemanticStore.list_by_agent agent_id limit in
  ret (episodic ++ semantic).

Definition search_memories (agent_id query : pystr) : M World (list memory_item) :=
  let! episodic_hits := EpisodicStore.search agent_id query in
  let! embedding := DefaultProcessor.embed query in
  let! semantic_ids := VectorIndex.search agent_id embedding 5 in
  let! semantic_hits := SemanticStore.get_by_ids agent_id semantic_ids in
  ret (episodic_hits ++ semantic_hits).

Definition update_memory_content (agent_id : pystr) (mem_id : Z) (new_content mem_type : pystr)
    : M World bool :=
  if negb (allow_user_to_edit_memory policy agent_id mem_type) then ret false
  else if str_eqb mem_type (py "episodic")
  then EpisodicStore.update_content agent_id mem_id new_content
  else if str_eqb mem_type (py "semantic")
  then
    let! embedding := DefaultProcessor.embed new_content in
    SemanticStore.update_content agent_id mem_id new_content (Some embedding)
  else ret false.

Definition delete_memory (agent_id : pystr) (mem_id : Z) (mem_type : pystr) : M World bool :=
  if str_eqb mem_type (py "episodic")
  then
    let! success := EpisodicStore.delete_by_id agent_id mem_id in
    (if success then VectorIndex.remove agent_id (py "episodic") mem_id else ret tt) ;;;
    ret success
  else if str_eqb mem_type (py "semantic")
  then
    let! success := SemanticStore.delete_by_id agent_id mem_id in
    (if success then VectorIndex.remove agent_id (py "semantic") mem_id else ret tt) ;;;
    ret success
  else ret false.


End Methods.

End MemoryManager.

(** ** core_memory.py *)

Module CoreMemory.

Record t : Type := mk { persona : pystr; human : pystr }.

(** The field defaults. *)
Definition default : t := mk [] [].

(** A call returns, with the object as the call left it, or raises
    [ValueError] with its message, the object as it was. *)
Inductive result : Type :=
  | Done (self : t)
  | ValueError (message : pystr).

Definition update_block (block_name value : pystr) (self : t) : result :=
  if str_eqb block_name (py "persona") then Done (mk value (human self))
  else if str_eqb block_name (py "human") then Done (mk (persona self) value)
  else ValueError (py "Unknown block name: " ++ block_name).

Definition append_to_block (block_name value : pystr) (self : t) : result :=
  if str_eqb block_name (py "persona")
  then Done (mk (persona self ++ [10%N] ++ value) (human self))
  else if str_eqb block_name (py "human")
  then Done (mk (persona self) (human self ++ [10%N] ++ value))
  else ValueError (py "Unknown block name: " ++ block_name).

Definition to_prompt_string (self : t) : pystr :=
  py "=== Core Memory (You can edit this) ===" ++ [10%N]
  ++ py "[Persona]" ++ [10%N] ++ persona self ++ [10%N; 10%N]
  ++ py "[Human]" ++ [10%N] ++ human self ++ [10%N]
  ++ py "=======================================".

(** Two calls in a row on the same object: the second runs if the first
    returned. *)
Definition and_then (r : result) (call : t -> result) : result :=
  match r with
  | Done self => call self
  | ValueError message => ValueError message
  end.

End CoreMemory.

(** ** A kernel to run the model on

    Exact rational arithmetic in place of float32: the dot product, and a
    normalisation that divides by a square root taken to 24 binary places
    (exact on vectors whose squared norm is a rational square). Lower-casing
    and decimal digits are those of ASCII. The embeddings endpoint answers
    the texts of [known_embeddings] and fails on every other one. *)

Module Kernel.

Definition dot (a b : list Q) : Q :=
  fold_right Qplus 0%Q (zip_with Qmult a b).

Definition sqrtQ (x : Q) : Q :=
  let n := Qnum x in
  let d := Z.pos (Qden x) in
  let exact := Z.sqrt (n * d) in
  if exact * exact =? n * d then Qred (Qmake exact (Qden x))
  else Qred (Qmake (Z.sqrt (n * d * 2 ^ 48)) (Qden x * 2 ^ 24)).

Definition renorm (v : list Q) : list Q :=
  let nr := dot v v in
  if Qle_bool nr 0 then v
  else map (fun x => Qred (x / sqrtQ nr)) v.

Definition ascii_lower (s : pystr) : pystr :=
  map (fun c => if ((65 <=? c) && (c <=? 90))%N then (c + 32)%N else c) s.

Definition ascii_decimal (c : N) : option Z :=
  if ((48 <=? c) && (c <=? 57))%N then Some (Z.of_N c - 48) else None.

Definition known_embeddings (text : pystr) : option (list Q) :=
  if str_eqb text (py "cats") then Some [3#1; 4#1]%Q
  else if str_eqb text (py "User loves dogs") then Some [0#1; 2#1]%Q
  else None.

End Kernel.

Definition kernel : External := {|
  normalize_L2 := Kernel.renorm;
  inner_product := Kernel.dot;
  str_lower := Kernel.ascii_lower;
  unicode_decimal := Kernel.ascii_decimal;
  embeddings_create := Kernel.known_embeddings;
|}.


(** ** Notions the properties are stated with *)

(** The store step [delete_memory] dispatches to. *)
Definition store_delete (agent_id : pystr) (mem_id : Z) (mem_type : pystr) : M World bool :=
  if str_eqb mem_type (py "episodic") then EpisodicStore.delete_by_id agent_id mem_id
  else if str_eqb mem_type (py "semantic") then SemanticStore.delete_by_id agent_id mem_id
  else ret false.

Section Notions.
Context `{External}.



(** Every live handle is the one its key is registered under. *)
Definition consistent (vi : IndexState) : Prop :=
  forall (h : Z) (key : pystr),
    id_to_key vi !! h = Some key -> Dict.get key (key_to_id vi) = Some h.



(** The index states a [VectorIndex] object can be in: the one its
    constructor builds, and those its methods leave, raising or not. *)
Inductive reachable : IndexState -> Prop :=
  | reachable_init (d : nat) :
      reachable (VectorIndex.__init__ d)
  | reachable_add (agent_id mem_type : pystr) (mem_id : Z) (e : ndarray) (w : World) :
      reachable (vector_index w) ->
      reachable (vector_index (snd (VectorIndex.add agent_id mem_type mem_id e w)))
  | reachable_search (agent_id : pystr) (q : ndarray) (k : Z) (w : World) :
      reachable (vector_index w) ->
      reachable (vector_index (snd (VectorIndex.search agent_id q k w)))
  | reachable_remove (agent_id mem_type : pystr) (mem_id : Z) (w : World) :
      reachable (vector_index w) ->
      reachable (vector_index (snd (VectorIndex.remove agent_id mem_type mem_id w)))
  | reachable_remove_by_key (key : pystr) (w : World) :
      reachable (vector_index w) ->
      reachable (vector_index (snd (VectorIndex.remove_by_key key w)))
  | reachable_clear_agent (agent_id : pystr) (w : World) :
      reachable (vector_index w) ->
      reachable (vector_index (snd (VectorIndex.clear_agent agent_id w))).




End Notions.

(** ** Scenarios: concrete worlds the model is run on *)

Module Scenario.

#[local] Existing Instance kernel.

Definition t1 : pystr := py "t1".
Definition tenant_a : pystr := py "a".
Definition tenant_b : pystr := py "b".
Definition semantic : pystr := py "semantic".

(** A caller-side array of shape [[2]] on buffer [l]. *)
Definition arr (l : positive) : ndarray := mkNdarray l [2%nat].

(** Buffers 1..4 hold [1,0], [0,1], [3,4] and [0,2]. *)
Definition heap0 : gmap positive (list Q) :=
  list_to_map [(1%positive, [1#1; 0#1]%Q); (2%positive, [0#1; 1#1]%Q);
               (3%positive, [3#1; 4#1]%Q); (4%positive, [0#1; 2#1]%Q)].

(** [VectorIndex(dim=2)], empty tables, no storage fault scheduled. *)
Definition w0 : World :=
  mkWorld heap0 (VectorIndex.__init__ 2) (mkDatabase [] 0 [] 0) 1000 [].

Definition exec {A : Type} (m : M World A) (w : World) : World := snd (m w).

Definition handle_of (w : World) (agent_id mem_type : pystr) (mem_id : Z) : option Z :=
  Dict.get (VectorIndex._make_key agent_id mem_type mem_id) (key_to_id (vector_index w)).

Definition stored_ids (w : World) : list Z := map fst (index (vector_index w)).

(** Two rows are added for one agent, the first is removed, a third is
    added. *)
Definition two_added : World :=
  exec (VectorIndex.add tenant_a semantic 2 (arr 2))
    (exec (VectorIndex.add tenant_a semantic 1 (arr 1)) w0).

Definition third_added : World :=
  exec (VectorIndex.add tenant_a semantic 3 (arr 3))
    (exec (VectorIndex.remove tenant_a semantic 1) two_added).

(** The same row is added twice. *)
Definition added_twice : World :=
  exec (VectorIndex.add tenant_a semantic 1 (arr 2))
    (exec (VectorIndex.add tenant_a semantic 1 (arr 1)) w0).

(** Agent [a] adds row 1, agent [b] adds row 2, [a] removes row 1 and adds
    row 3. *)
Definition shared_handle : World :=
  exec (VectorIndex.add tenant_a semantic 3 (arr 3))
    (exec (VectorIndex.remove tenant_a semantic 1)
       (exec (VectorIndex.add tenant_b semantic 2 (arr 2))
          (exec (VectorIndex.add tenant_a semantic 1 (arr 1)) w0))).

(** An agent whose name continues the key of agent [b]. *)
Definition tenant_b_semantic_9 : pystr := py "b:semantic:9".
Definition tenant_b_c : pystr := py "b:c".

Definition colon_row : World :=
  exec (VectorIndex.add tenant_b_semantic_9 semantic 9 (arr 1)) w0.

Definition colon_prefix : World :=
  exec (VectorIndex.add tenant_b_c semantic 1 (arr 1)) w0.

(** One event of [t1] that the policy lets in. *)
Definition paris : event := mkEvent (py "I love cats and live in Paris") (py "user").

Definition paris_recorded : World :=
  exec (MemoryManager.add_event DefaultPolicy.policy t1 paris) w0.

Definition hello : event := mkEvent (py "Hello") (py "user").

(** A summary of [t1] with its vector [1,0] in the index. *)
Definition summary_indexed : World :=
  exec (VectorIndex.add t1 semantic 1 (arr 1))
    (exec (SemanticStore.insert t1 (py "User loves cats") (py "{}")) w0).

(** The same, with the next storage access scheduled to fail. *)
Definition summary_indexed_faulty : World := set_io_faults [true] summary_indexed.

(** Rows and vectors of two agents, then the erasure of [t1]. *)
Definition two_tenants : World :=
  exec (VectorIndex.add tenant_b semantic 2 (arr 2))
    (exec (SemanticStore.insert tenant_b (py "b likes tea") (py "{}"))
       (exec (MemoryManager.add_event DefaultPolicy.policy t1 paris) summary_indexed)).



(** One vector of agent [b], rows 101 and 102 of agent [a]. *)
Definition uncrowded : World :=
  exec (VectorIndex.add tenant_a semantic 102 (arr 2))
    (exec (VectorIndex.add tenant_a semantic 101 (arr 2))
       (exec (VectorIndex.add tenant_b semantic 1 (arr 1)) w0)).

(** The default policy with its promotion trigger replaced by a constant. *)
Definition with_trigger (answer : bool) : BasePolicy :=
  mkPolicy DefaultPolicy.should_store_as_episodic (fun _ _ => answer)
    DefaultPolicy.get_episodic_ttl_days DefaultPolicy.allow_user_to_edit_memory.

(** [n] events of [t1] handed to [add_event] one after the other: the ids
    returned, and the world they leave. *)
Fixpoint record_events (policy : BasePolicy) (n : nat) (w : World)
    : list (outcome Z) * World :=
  match n with
  | O => ([], w)
  | S n' =>
      let (id, w1) := MemoryManager.add_event policy t1 paris w in
      let (ids, w2) := record_events policy n' w1 in
      (id :: ids, w2)
  end.

(** The same, with event 3 deleted once ten events are in. *)
Definition record_delete_record (policy : BasePolicy) : list (outcome Z) * World :=
  let (ids, w10) := record_events policy 10 w0 in
  let (ids', w30) :=
    record_events policy 20 (exec (MemoryManager.delete_memory t1 3 (py "episodic")) w10) in
  (ids ++ ids', w30).

End Scenario.

(** ** Further notions *)

Section MoreNotions.
Context `{External}.

(** The endpoint table of the runtime reads the ASCII digits as themselves. *)
Definition ascii_digits_known : Prop :=
  forall d : Z, 0 <= d <= 9 -> unicode_decimal (Z.to_N (48 + d)) = Some d.

(** The live handles are exactly [0 .. len(id_to_key) - 1]. *)
Definition dense (vi : IndexState) : Prop :=
  forall h : Z, is_Some (id_to_key vi !! h) <-> 0 <= h < Z.of_nat (size (id_to_key vi)).

(** No two registered keys are registered under the same handle. *)
Definition unshared_handles (vi : IndexState) : Prop :=
  forall (k k' : pystr) (h : Z),
    Dict.get k (key_to_id vi) = Some h -> Dict.get k' (key_to_id vi) = Some h -> k = k'.

End MoreNotions.

(** The value of a digit string read from the left, on top of [acc]. *)
Fixpoint horner (u : Decimal.uint) (acc : Z) : Z :=
  match u with
  | Decimal.Nil => acc
  | Decimal.D0 u => horner u (10 * acc + 0)
  | Decimal.D1 u => horner u (10 * acc + 1)
  | Decimal.D2 u => horner u (10 * acc + 2)
  | Decimal.D3 u => horner u (10 * acc + 3)
  | Decimal.D4 u => horner u (10 * acc + 4)
  | Decimal.D5 u => horner u (10 * acc + 5)
  | Decimal.D6 u => horner u (10 * acc + 6)
  | Decimal.D7 u => horner u (10 * acc + 7)
  | Decimal.D8 u => horner u (10 * acc + 8)
  | Decimal.D9 u => horner u (10 * acc + 9)
  end.

(** No row id exceeds the sequence of its table. *)
Definition episodic_ids_bounded (d : Database) : Prop :=
  forall r, r ∈ episodic_memory d -> e_id r <= episodic_seq d.





(** The item is the dict of a row the agent owns. *)
Definition item_of_agent (d : Database) (agent_id : pystr) (item : memory_item) : Prop :=
  (exists r, r ∈ episodic_memory d /\ e_agent_id r = agent_id
             /\ item = EpisodicStore.to_dict r)
  \/ (exists r, r ∈ semantic_memory d /\ s_agent_id r = agent_id
                /\ item = SemanticStore.to_dict r).

(** The rows the agent owns, in both tables. *)
Definition rows_of_agent (agent_id : pystr) (d : Database)
    : list episodic_row * list semantic_row :=
  (filter (fun r => e_agent_id r = agent_id) (episodic_memory d),
   filter (fun r => s_agent_id r = agent_id) (semantic_memory d)).

(** The rows of the event table with this id and this owner. *)
Definition matching (agent_id : pystr) (mem_id : Z) (d : Database) : list episodic_row :=
  filter (fun r => e_id r = mem_id /\ e_agent_id r = agent_id) (episodic_memory d).

(** ** Further scenarios *)

Module MoreScenarios.

#[local] Existing Instance kernel.

(** [VectorIndex(dim=3)] beside the two-dimensional arrays of [heap0]. *)
Definition w_dim3 : World :=
  mkWorld Scenario.heap0 (VectorIndex.__init__ 3) (mkDatabase [] 0 [] 0) 1000 [].

(** A core memory with a persona and no human block yet. *)
Definition core : CoreMemory.t := CoreMemory.mk (py "I am Memoria") [].

End MoreScenarios.

(** * Properties *)

(** ** The promotion trigger *)

Section Promotion.
Context `{External}.

Lemma should_summarize_spec (agent_id : pystr) (n : Z) :
  DefaultPolicy.should_summarize_to_semantic agent_id n = true <-> exists q, n = 10 * q.
Proof.
  unfold DefaultPolicy.should_summarize_to_semantic. rewrite Z.eqb_eq. split.
  - intros Hm. exists (n / 10). pose proof (Z.div_mod n 10). lia.
  - intros [q ->]. rewrite Z.mul_comm. apply Z.mod_mul. lia.
Qed.

Lemma add_event_ignores_trigger (p p' : BasePolicy) (agent_id : pystr) (ev : event)
    (w : World) :
  should_store_as_episodic p agent_id ev = should_store_as_episodic p' agent_id ev ->
  MemoryManager.add_event p agent_id ev w = MemoryManager.add_event p' agent_id ev w.
Proof. intros Hsame. unfold MemoryManager.add_event. rewrite Hsame. reflexivity. Qed.

Lemma add_event_promotes_nothing (p : BasePolicy) (agent_id : pystr) (ev : event)
    (w : World) :
  semantic_memory (db (snd (MemoryManager.add_event p agent_id ev w)))
    = semantic_memory (db w)
  /\ semantic_seq (db (snd (MemoryManager.add_event p agent_id ev w))) = semantic_seq (db w)
  /\ vector_index (snd (MemoryManager.add_event p agent_id ev w)) = vector_index w.
Proof.
  unfold MemoryManager.add_event.
  destruct (should_store_as_episodic p agent_id ev); simpl; [|auto].
  unfold EpisodicStore.insert, bind, ret, Sql.connect.
  destruct (io_faults w) as [|[|] fs]; simpl; auto.
Qed.

(** C8, as amended. The promotion trigger is true exactly when the count it
    is given is a multiple of 10: over the counts 1..30 exactly at 10, 20
    and 30. It is a function of that count alone. Nothing counts the
    events let in and nothing calls the trigger: [add_event] decides and
    writes the same under any two policies that let the same events in,
    whatever their triggers answer, and an event that is let in leaves the
    summary table and the vector index as they were. *)
Theorem promotion_trigger_multiples_of_10 (agent_id : pystr) :
  (forall n : Z,
     DefaultPolicy.should_summarize_to_semantic agent_id n = true <-> exists q, n = 10 * q)
  /\ List.filter (DefaultPolicy.should_summarize_to_semantic agent_id)
       (map Z.of_nat (seq 1 30)) = [10; 20; 30]
  /\ (forall (p p' : BasePolicy) (ev : event) (w : World),
        should_store_as_episodic p agent_id ev = should_store_as_episodic p' agent_id ev ->
        MemoryManager.add_event p agent_id ev w = MemoryManager.add_event p' agent_id ev w)
  /\ (forall (p : BasePolicy) (ev : event) (w : World),
        semantic_memory (db (snd (MemoryManager.add_event p agent_id ev w)))
          = semantic_memory (db w)
        /\ semantic_seq (db (snd (MemoryManager.add_event p agent_id ev w)))
           = semantic_seq (db w)
        /\ vector_index (snd (MemoryManager.add_event p agent_id ev w)) = vector_index w).
Proof.
  split; [|split; [|split]].
  - intros n. apply should_summarize_spec.
  - reflexivity.
  - intros p p' ev w. apply add_event_ignores_trigger.
  - intros p ev w. apply add_event_promotes_nothing.
Qed.

End Promotion.

(** ** Frames: what each method leaves alone *)

Section Frames.
Context `{External}.

Lemma connect_frame (w w' : World) (o : outcome unit) :
  Sql.connect w = (o, w') ->
  vector_index w' = vector_index w /\ db w' = db w /\ heap w' = heap w.
Proof.
  unfold Sql.connect. destruct (io_faults w) as [|[] fs]; intros [= <- <-]; auto.
Qed.

Lemma connect_no_fault (w : World) :
  io_faults w = [] -> Sql.connect w = (Returned tt, w).
Proof. unfold Sql.connect. intros ->. reflexivity. Qed.

Lemma embed_frame (text : pystr) (w w' : World) (o : outcome ndarray) :
  DefaultProcessor.embed text w = (o, w') ->
  vector_index w' = vector_index w /\ db w' = db w.
Proof.
  unfold DefaultProcessor.embed, Np.array, raise.
  destruct (embeddings_create text); intros [= <- <-]; auto.
Qed.

Lemma episodic_update_frame agent_id mem_id new_content (w w' : World) (o : outcome bool) :
  EpisodicStore.update_content agent_id mem_id new_content w = (o, w') ->
  vector_index w' = vector_index w.
Proof.
  unfold EpisodicStore.update_content, bind.
  destruct (Sql.connect w) as [[[]|e] w1] eqn:Hc; apply connect_frame in Hc as (Hv & _ & _).
  - intros [= <- <-]. exact Hv.
  - intros [= <- <-]. exact Hv.
Qed.

Lemma semantic_update_frame agent_id mem_id new_content emb (w w' : World) (o : outcome bool) :
  SemanticStore.update_content agent_id mem_id new_content emb w = (o, w') ->
  vector_index w' = vector_index w.
Proof.
  unfold SemanticStore.update_content, bind.
  destruct (Sql.connect w) as [[[]|e] w1] eqn:Hc; apply connect_frame in Hc as (Hv & _ & _).
  - intros [= <- <-]. exact Hv.
  - intros [= <- <-]. exact Hv.
Qed.

Lemma episodic_delete_frame agent_id mem_id (w w' : World) (o : outcome bool) :
  EpisodicStore.delete_by_id agent_id mem_id w = (o, w') ->
  vector_index w' = vector_index w.
Proof.
  unfold EpisodicStore.delete_by_id, bind.
  destruct (Sql.connect w) as [[[]|e] w1] eqn:Hc; apply connect_frame in Hc as (Hv & _ & _).
  - intros [= <- <-]. exact Hv.
  - intros [= <- <-]. exact Hv.
Qed.

Lemma semantic_delete_frame agent_id mem_id (w w' : World) (o : outcome bool) :
  SemanticStore.delete_by_id agent_id mem_id w = (o, w') ->
  vector_index w' = vector_index w.
Proof.
  unfold SemanticStore.delete_by_id, bind.
  destruct (Sql.connect w) as [[[]|e] w1] eqn:Hc; apply connect_frame in Hc as (Hv & _ & _).
  - intros [= <- <-]. exact Hv.
  - intros [= <- <-]. exact Hv.
Qed.

End Frames.

(** ** The coordinator *)

Section Coordinator.
Context `{External}.
Variable policy : BasePolicy.

(** [update_memory_content] never writes to the vector index, whatever the
    kind and whatever the outcome. *)
Lemma update_memory_content_index_frame (agent_id : pystr) (mem_id : Z)
    (new_content mem_type : pystr) (w : World) :
  vector_index (snd (MemoryManager.update_memory_content policy agent_id mem_id
                       new_content mem_type w)) = vector_index w.
Proof.
  unfold MemoryManager.update_memory_content.
  destruct (negb _); [reflexivity|].
  destruct (str_eqb mem_type (py "episodic")).
  { destruct (EpisodicStore.update_content _ _ _ w) as [o w'] eqn:Hu.
    apply episodic_update_frame in Hu. exact Hu. }
  destruct (str_eqb mem_type (py "semantic")); [|reflexivity].
  unfold bind.
  destruct (DefaultProcessor.embed new_content w) as [[emb|e] w1] eqn:He;
    apply embed_frame in He as [Hv _]; [|exact Hv].
  destruct (SemanticStore.update_content _ _ _ _ w1) as [o w'] eqn:Hu.
  apply semantic_update_frame in Hu. simpl. congruence.
Qed.

(** C7. [delete_memory] runs the store deletion first. When that step raises
    or reports that no row was deleted, [delete_memory] ends with that very
    outcome and the vector index is the one it started with. Only when the
    store reports success is [VectorIndex.remove] run, on the state the store
    left. *)
Theorem delete_memory_store_then_index (agent_id : pystr) (mem_id : Z) (mem_type : pystr)
    (w w1 : World) (o : outcome bool) :
  store_delete agent_id mem_id mem_type w = (o, w1) ->
  (o <> Returned true ->
     MemoryManager.delete_memory agent_id mem_id mem_type w = (o, w1)
     /\ vector_index w1 = vector_index w)
  /\ (o = Returned true ->
     vector_index w1 = vector_index w
     /\ MemoryManager.delete_memory agent_id mem_id mem_type w =
          (VectorIndex.remove agent_id mem_type mem_id ;;; ret true) w1).
Proof.
  unfold store_delete, MemoryManager.delete_memory. intros Hs.
  destruct (str_eqb mem_type (py "episodic")) eqn:He.
  { apply bool_decide_eq_true in He. subst mem_type.
    pose proof (episodic_delete_frame _ _ _ _ _ Hs) as Hv.
    unfold bind at 1 3. rewrite Hs. split.
    - intros Hne. split; [|exact Hv].
      destruct o as [[]|e]; [congruence|reflexivity|reflexivity].
    - intros ->. split; [exact Hv|]. unfold bind.
      destruct (VectorIndex.remove _ _ _ w1) as [[[]|e] w2]; reflexivity. }
  destruct (str_eqb mem_type (py "semantic")) eqn:Hm.
  { apply bool_decide_eq_true in Hm. subst mem_type.
    pose proof (semantic_delete_frame _ _ _ _ _ Hs) as Hv.
    unfold bind at 1 3. rewrite Hs. split.
    - intros Hne. split; [|exact Hv].
      destruct o as [[]|e]; [congruence|reflexivity|reflexivity].
    - intros ->. split; [exact Hv|]. unfold bind.
      destruct (VectorIndex.remove _ _ _ w1) as [[[]|e] w2]; reflexivity. }
  unfold ret in Hs. injection Hs as <- <-. split.
  - intros _. split; reflexivity.
  - intros [=].
Qed.

End Coordinator.

Section Coordinator2.
Context `{External}.
Variable policy : BasePolicy.

Lemma episodic_search_frame (agent_id query : pystr) (w w1 : World)
    (o : outcome (list memory_item)) :
  EpisodicStore.search agent_id query w = (o, w1) ->
  vector_index w1 = vector_index w /\ db w1 = db w /\ heap w1 = heap w.
Proof.
  unfold EpisodicStore.search, EpisodicStore.search_by_agent, bind, gets, ret.
  destruct (Sql.connect w) as [[[]|e] w0] eqn:Hc; apply connect_frame in Hc;
    intros [= <- <-]; exact Hc.
Qed.

(** C2, as the code has it. When the keyword search has returned and the
    embeddings call then fails, [search_memories] raises that failure: the
    keyword hits are dropped and there is no local recovery. Tables, index
    and arrays are as they were before the call. *)
Theorem search_memories_embedding_failure_propagates (agent_id query : pystr)
    (w w1 : World) (hits : list memory_item) :
  EpisodicStore.search agent_id query w = (Returned hits, w1) ->
  embeddings_create query = None ->
  MemoryManager.search_memories agent_id query w = (Raised EmbeddingFailure, w1)
  /\ db w1 = db w /\ vector_index w1 = vector_index w /\ heap w1 = heap w.
Proof.
  intros Hs He. split.
  - unfold MemoryManager.search_memories, bind. rewrite Hs.
    unfold DefaultProcessor.embed. rewrite He. reflexivity.
  - apply episodic_search_frame in Hs. tauto.
Qed.

(** What [EpisodicStore.insert] does when its connection opens. *)
Lemma episodic_insert_no_fault (agent_id content role : pystr) (w : World) :
  head (io_faults w) <> Some true ->
  exists w',
    EpisodicStore.insert agent_id content role w = (Returned (episodic_seq (db w) + 1), w')
    /\ episodic_memory (db w') =
         episodic_memory (db w)
           ++ [mkEpisodicRow (episodic_seq (db w) + 1) agent_id content role (now w)]
    /\ vector_index w' = vector_index w.
Proof.
  intros Hf. unfold EpisodicStore.insert, bind, Sql.connect.
  destruct (io_faults w) as [|[] fs]; simpl in *; try congruence; eexists; eauto.
Qed.

(** C6, as the code has it. A rejected event is answered with [-1] and the
    state is untouched; an accepted event is handed to
    [EpisodicStore.insert], whose outcome is the answer: unless the storage
    fails, the new row is appended and its id returned. The default policy
    accepts an event exactly when its stripped content has at least 5
    characters and the lower-cased stripped content is not in the stop
    list. *)
Theorem add_event_gating (agent_id : pystr) (ev : event) (w : World) :
  (should_store_as_episodic policy agent_id ev = false ->
     MemoryManager.add_event policy agent_id ev w = (Returned (-1), w))
  /\ (should_store_as_episodic policy agent_id ev = true ->
     MemoryManager.add_event policy agent_id ev w =
       EpisodicStore.insert agent_id (content ev) (role ev) w
     /\ (head (io_faults w) <> Some true ->
         exists w',
           MemoryManager.add_event policy agent_id ev w =
             (Returned (episodic_seq (db w) + 1), w')
           /\ episodic_memory (db w') =
                episodic_memory (db w)
                  ++ [mkEpisodicRow (episodic_seq (db w) + 1) agent_id (content ev) (role ev)
                        (now w)]))
  /\ (should_store_as_episodic DefaultPolicy.policy agent_id ev = true <->
      5 <= Z.of_nat (length (strip (content ev)))
      /\ (str_lower (strip (content ev)) ∉ DefaultPolicy.stop_list)).
Proof.
  assert (Hadm : should_store_as_episodic policy agent_id ev = true ->
            MemoryManager.add_event policy agent_id ev w =
              EpisodicStore.insert agent_id (content ev) (role ev) w).
  { intros Ha. unfold MemoryManager.add_event. rewrite Ha. simpl. unfold bind.
    destruct (EpisodicStore.insert _ _ _ w) as [[i|e] w']; reflexivity. }
  split; [|split].
  - intros Hr. unfold MemoryManager.add_event. rewrite Hr. reflexivity.
  - intros Ha. split; [auto|]. intros Hf. rewrite (Hadm Ha).
    destruct (episodic_insert_no_fault agent_id (content ev) (role ev) w Hf)
      as (w' & Hi & Hrows & _).
    exists w'. auto.
  - simpl. unfold DefaultPolicy.should_store_as_episodic.
    destruct (Z.ltb_spec (Z.of_nat (length (strip (content ev)))) 5).
    + split; [discriminate | lia].
    + destruct (bool_decide_reflect (str_lower (strip (content ev)) ∈ DefaultPolicy.stop_list)).
      * split; [discriminate | tauto].
      * split; auto.
Qed.

End Coordinator2.

Section InPlace.
Context `{External}.

Lemma reshape_row_spec (a : ndarray) (w w' : World) (x : ndarray) :
  Np.reshape_row a w = (Returned x, w') ->
  w' = w /\ exists v, heap w !! buffer a = Some v /\ v <> []
                     /\ x = mkNdarray (buffer a) [1%nat; length v].
Proof.
  unfold Np.reshape_row. destruct (heap w !! buffer a) as [[|c v]|]; intros [= <- <-];
    split; auto. exists (c :: v). auto.
Qed.

Lemma reshape_row_returns (a : ndarray) (w : World) (v : list Q) :
  heap w !! buffer a = Some v -> v <> [] ->
  Np.reshape_row a w = (Returned (mkNdarray (buffer a) [1%nat; length v]), w).
Proof.
  unfold Np.reshape_row. intros -> Hv. destruct v; [congruence|reflexivity].
Qed.

Lemma normalize_inplace_spec (x : ndarray) (w w' : World) (v : list Q) :
  heap w !! buffer x = Some v ->
  Faiss.normalize_L2_inplace x w = (Returned tt, w') ->
  w' = set_heap (<[buffer x := normalize_L2 v]> (heap w)) w.
Proof.
  unfold Faiss.normalize_L2_inplace. intros ->. intros [= <-]. reflexivity.
Qed.

Lemma remove_by_key_heap (key : pystr) (w w' : World) (o : outcome unit) :
  VectorIndex.remove_by_key key w = (o, w') -> heap w' = heap w.
Proof.
  unfold VectorIndex.remove_by_key.
  destruct (Dict.get key _); [|intros [= <- <-]; reflexivity].
  simpl. destruct (id_to_key (vector_index w) !! z); intros [= <- <-]; reflexivity.
Qed.

(** C10. When [add] returns, the buffer of the array the caller passed as
    [embedding] holds the normalised vector: [reshape] gave a view on that
    buffer and [faiss.normalize_L2] wrote through it. The same holds for the
    [query_emb] of [search]. *)
Theorem add_and_search_normalize_in_place (agent_id mem_type : pystr) (mem_id k : Z)
    (a : ndarray) (v : list Q) (w : World) :
  heap w !! buffer a = Some v ->
  (forall w', VectorIndex.add agent_id mem_type mem_id a w = (Returned tt, w') ->
     heap w' !! buffer a = Some (normalize_L2 v))
  /\ (forall ids w', VectorIndex.search agent_id a k w = (Returned ids, w') ->
     heap w' !! buffer a = Some (normalize_L2 v)).
Proof.
  intros Hv. split.
  - intros w'. unfold VectorIndex.add, bind at 1, bind at 1, gets.
    set (key := VectorIndex._make_key agent_id mem_type mem_id).
    assert (Htail : forall w1 fid, heap w1 = heap w ->
              (let! emb_2d := Np.reshape_row a in
               Faiss.normalize_L2_inplace emb_2d ;;; Faiss.add_with_ids emb_2d fid) w1
                = (Returned tt, w') ->
              heap w' !! buffer a = Some (normalize_L2 v)).
    { intros w1 fid Hh. unfold bind.
      destruct (Np.reshape_row a w1) as [[x|e] w2] eqn:Hx; [|discriminate].
      apply reshape_row_spec in Hx as [-> (v' & Hv' & _ & ->)].
      unfold Faiss.normalize_L2_inplace, Faiss.add_with_ids. simpl.
      rewrite Hv'. simpl. rewrite lookup_insert_eq.
      destruct (Nat.eqb _ _); [|discriminate].
      intros [= <-]. simpl. rewrite lookup_insert_eq. congruence. }
    destruct (Dict.contains key (key_to_id (vector_index w))).
    + destruct (VectorIndex.remove_by_key key w) as [[[]|e] w1] eqn:Hr; [|discriminate].
      apply remove_by_key_heap in Hr.
      unfold bind at 1, bind at 1, bind at 1, modify, gets. apply Htail. exact Hr.
    + unfold ret. unfold bind at 1, bind at 1, bind at 1, modify, gets. apply Htail. reflexivity.
  - intros ids w'. unfold VectorIndex.search, bind.
    destruct (Np.reshape_row a w) as [[x|e] w2] eqn:Hx; [|discriminate].
    apply reshape_row_spec in Hx as [-> (v' & Hv' & _ & ->)].
    unfold Faiss.normalize_L2_inplace, Faiss.search, gets, lift_outcome. simpl.
    rewrite Hv'. simpl. rewrite lookup_insert_eq.
    destruct (_ && _); [|discriminate].
    destruct (VectorIndex.search_loop _ _ _ _ _); [|discriminate].
    intros [= _ <-]. simpl. rewrite lookup_insert_eq. congruence.
Qed.

End InPlace.

(** ** Dictionaries and keys *)

Section DictFacts.
Context {V : Type}.
Implicit Types (d : list (pystr * V)) (k : pystr).

Lemma str_eqb_eq (a b : pystr) : str_eqb a b = true <-> a = b.
Proof. unfold str_eqb. apply bool_decide_eq_true. Qed.

Lemma str_eqb_refl (a : pystr) : str_eqb a a = true.
Proof. apply str_eqb_eq. reflexivity. Qed.

Lemma str_eqb_ne (a b : pystr) : a <> b -> str_eqb a b = false.
Proof. unfold str_eqb. apply bool_decide_eq_false. Qed.

Lemma get_del_eq k d : Dict.get k (Dict.del k d) = None.
Proof.
  induction d as [|[k' v] d IH]; simpl; [reflexivity|].
  destruct (str_eqb k k') eqn:E; [exact IH|]. simpl. rewrite E. exact IH.
Qed.

Lemma get_del_ne k k' d : k <> k' -> Dict.get k' (Dict.del k d) = Dict.get k' d.
Proof.
  intros Hne. induction d as [|[k0 v] d IH]; simpl; [reflexivity|].
  destruct (str_eqb k k0) eqn:E.
  - apply str_eqb_eq in E. subst k0. rewrite str_eqb_ne by congruence. exact IH.
  - simpl. destruct (str_eqb k' k0); [reflexivity|exact IH].
Qed.

Lemma get_del_None k k' d : Dict.get k' d = None -> Dict.get k' (Dict.del k d) = None.
Proof.
  intros Hn. destruct (decide (k = k')) as [->|Hne].
  - apply get_del_eq.
  - rewrite get_del_ne by exact Hne. exact Hn.
Qed.

Lemma get_set_eq k v d : Dict.get k (Dict.set k v d) = Some v.
Proof.
  induction d as [|[k' v'] d IH]; simpl.
  - rewrite str_eqb_refl. reflexivity.
  - destruct (str_eqb k k') eqn:E; simpl; rewrite E; [reflexivity|exact IH].
Qed.

Lemma get_set_ne k k' v d : k <> k' -> Dict.get k' (Dict.set k v d) = Dict.get k' d.
Proof.
  intros Hne. induction d as [|[k0 v0] d IH]; simpl.
  - rewrite str_eqb_ne by congruence. reflexivity.
  - destruct (str_eqb k k0) eqn:E; simpl.
    + apply str_eqb_eq in E. subst k0. rewrite str_eqb_ne by congruence. reflexivity.
    + destruct (str_eqb k' k0); [reflexivity|exact IH].
Qed.

Lemma get_Some_keys k v d : Dict.get k d = Some v -> k ∈ Dict.keys d.
Proof.
  induction d as [|[k' v'] d IH]; simpl; [discriminate|].
  destruct (str_eqb k k') eqn:E.
  - apply str_eqb_eq in E. subst k'. intros _. apply list_elem_of_here.
  - intros Hg. apply list_elem_of_further. apply IH. exact Hg.
Qed.

End DictFacts.

Section KeyFacts.
Context `{External}.

Lemma startswith_cons (c : N) (s p : pystr) :
  startswith (c :: s) (c :: p) = startswith s p.
Proof. simpl. rewrite N.eqb_refl. reflexivity. Qed.




End KeyFacts.

(** ** The two dictionaries stay consistent *)

Section IndexInvariant.
Context `{External}.

Lemma remove_by_key_spec (key : pystr) (w w' : World) (o : outcome unit) :
  VectorIndex.remove_by_key key w = (o, w') ->
  consistent (vector_index w) ->
  consistent (vector_index w')
  /\ Dict.get key (key_to_id (vector_index w')) = None
  /\ (forall k, Dict.get k (key_to_id (vector_index w)) = None ->
                Dict.get k (key_to_id (vector_index w')) = None)
  /\ db w' = db w /\ io_faults w' = io_faults w.
Proof.
  unfold VectorIndex.remove_by_key. intros Hr Hc.
  destruct (Dict.get key (key_to_id (vector_index w))) as [fid|] eqn:Hg.
  - simpl in Hr.
    assert (Hkeep : forall h key0, h <> fid -> id_to_key (vector_index w) !! h = Some key0 ->
              Dict.get key0 (Dict.del key (key_to_id (vector_index w))) = Some h).
    { intros h key0 Hne Hl. rewrite get_del_ne; [apply Hc; exact Hl|].
      intros <-. apply Hc in Hl. congruence. }
    destruct (id_to_key (vector_index w) !! fid) as [key1|] eqn:Hl;
      injection Hr as <- <-; simpl; (split; [|split; [|split]]); auto using get_del_eq, get_del_None.
    + intros h key0. simpl. rewrite lookup_delete_Some. intros [Hne Hl0]. apply Hkeep; auto.
    + intros h key0. simpl. intros Hl0. apply Hkeep; [|exact Hl0]. congruence.
  - injection Hr as <- <-. auto.
Qed.

Lemma remove_each_spec (keys : list pystr) (w w' : World) (o : outcome unit) :
  VectorIndex.remove_each keys w = (o, w') ->
  consistent (vector_index w) ->
  consistent (vector_index w')
  /\ (forall k, Dict.get k (key_to_id (vector_index w)) = None ->
                Dict.get k (key_to_id (vector_index w')) = None)
  /\ (o = Returned tt -> forall k, k ∈ keys -> Dict.get k (key_to_id (vector_index w')) = None)
  /\ db w' = db w /\ io_faults w' = io_faults w.
Proof.
  revert w. induction keys as [|k0 keys IH]; intros w; simpl.
  - intros [= <- <-] Hc. repeat split; auto. intros _ k Hk. inversion Hk.
  - unfold bind. destruct (VectorIndex.remove_by_key k0 w) as [[[]|e] w1] eqn:Hr; intros Hre Hc;
      destruct (remove_by_key_spec _ _ _ _ Hr Hc) as (Hc1 & Hgone & Hmono & Hdb & Hio).
    + destruct (IH _ Hre Hc1) as (Hc2 & Hmono2 & Hall & Hdb2 & Hio2).
      repeat split; auto; try congruence.
      intros Ho k Hk. apply elem_of_cons in Hk as [->|Hk]; auto.
    + injection Hre as <- <-. repeat split; auto. discriminate.
Qed.

Lemma clear_agent_spec (agent_id : pystr) (w w' : World) (o : outcome unit) :
  VectorIndex.clear_agent agent_id w = (o, w') ->
  consistent (vector_index w) ->
  consistent (vector_index w')
  /\ (o = Returned tt -> forall h key, id_to_key (vector_index w') !! h = Some key ->
        startswith key (agent_id ++ [colon]) = false)
  /\ db w' = db w /\ io_faults w' = io_faults w.
Proof.
  unfold VectorIndex.clear_agent, bind, gets. intros Hr Hc.
  destruct (remove_each_spec _ _ _ _ Hr Hc) as (Hc' & Hmono & Hall & Hdb & Hio).
  repeat split; auto.
  intros Ho h key Hl. destruct (startswith key (agent_id ++ [colon])) eqn:Hs; [|reflexivity].
  exfalso. pose proof (Hc' _ _ Hl) as Hg.
  destruct (Dict.get key (key_to_id (vector_index w))) as [h0|] eqn:Hg0.
  - apply get_Some_keys in Hg0.
    rewrite (Hall Ho key) in Hg; [discriminate|].
    apply list_elem_of_filter. split; assumption.
  - rewrite (Hmono _ Hg0) in Hg. discriminate.
Qed.

(** Normalising and storing the vector touch neither dictionary. *)
Lemma store_vector_frame (e : ndarray) (fid : Z) (w w' : World) (o : outcome unit) :
  (let! emb_2d := Np.reshape_row e in
   Faiss.normalize_L2_inplace emb_2d ;;; Faiss.add_with_ids emb_2d fid) w = (o, w') ->
  id_to_key (vector_index w') = id_to_key (vector_index w)
  /\ key_to_id (vector_index w') = key_to_id (vector_index w).
Proof.
  unfold bind, Np.reshape_row, Faiss.normalize_L2_inplace, Faiss.add_with_ids.
  destruct (heap w !! buffer e) as [[|c v]|] eqn:Hh; try (intros [= <- <-]; auto).
  simpl. rewrite Hh. simpl. rewrite lookup_insert_eq.
  match goal with |- context [if ?b then _ else _] => destruct b end;
    intros [= <- <-]; auto.
Qed.

Lemma add_consistent (agent_id mem_type : pystr) (mem_id : Z) (e : ndarray) (w : World) :
  consistent (vector_index w) ->
  consistent (vector_index (snd (VectorIndex.add agent_id mem_type mem_id e w))).
Proof.
  intros Hc. unfold VectorIndex.add.
  set (key := VectorIndex._make_key agent_id mem_type mem_id).
  unfold bind at 1.
  assert (Hfirst : exists o1 w1,
            (let! present := gets (fun w => Dict.contains key (key_to_id (vector_index w))) in
             if present then VectorIndex.remove_by_key key else ret tt) w = (o1, w1)
            /\ consistent (vector_index w1)
            /\ Dict.get key (key_to_id (vector_index w1)) = None).
  { unfold bind, gets, Dict.contains.
    destruct (Dict.get key (key_to_id (vector_index w))) as [h0|] eqn:Hg.
    - destruct (VectorIndex.remove_by_key key w) as [o1 w1] eqn:Hr.
      destruct (remove_by_key_spec _ _ _ _ Hr Hc) as (Hc1 & Hgone & _).
      eauto.
    - unfold ret. eauto. }
  destruct Hfirst as (o1 & w1 & -> & Hc1 & Hgone).
  destruct o1 as [[]|e1]; [|exact Hc1].
  unfold bind at 1, gets. unfold bind at 1, modify. unfold bind at 1.
  match goal with |- consistent (vector_index (snd (?t ?w2))) =>
    destruct (t w2) as [o3 w3] eqn:Ht; set (wm := w2) in * end.
  apply store_vector_frame in Ht as [Hi Hk]. simpl.
  intros h key0. rewrite Hi, Hk. subst wm. simpl.
  set (fid := Z.of_nat (size (id_to_key (vector_index w1)))).
  rewrite lookup_insert_Some. intros [[<- <-]|[Hne Hl]].
  - apply get_set_eq.
  - rewrite get_set_ne; [apply Hc1; exact Hl|].
    intros <-. apply Hc1 in Hl. congruence.
Qed.

Lemma search_frame (agent_id : pystr) (q : ndarray) (k : Z) (w : World) :
  vector_index (snd (VectorIndex.search agent_id q k w)) = vector_index w
  /\ db (snd (VectorIndex.search agent_id q k w)) = db w
  /\ io_faults (snd (VectorIndex.search agent_id q k w)) = io_faults w.
Proof.
  unfold VectorIndex.search, bind, Np.reshape_row, Faiss.normalize_L2_inplace, Faiss.search,
    gets, lift_outcome.
  destruct (heap w !! buffer q) as [[|c v]|] eqn:Hh; simpl; auto.
  rewrite Hh. simpl. rewrite lookup_insert_eq. simpl. destruct (_ && _); simpl; auto.
Qed.

Lemma reachable_consistent (vi : IndexState) : reachable vi -> consistent vi.
Proof.
  induction 1 as [d|a t m e w _ IH|a q k w _ IH|a t m w _ IH|key w _ IH|a w _ IH].
  - intros h key. simpl. rewrite lookup_empty. discriminate.
  - apply add_consistent. exact IH.
  - destruct (search_frame a q k w) as [-> _]. exact IH.
  - unfold VectorIndex.remove.
    destruct (VectorIndex.remove_by_key _ w) as [o w'] eqn:Hr.
    apply (remove_by_key_spec _ _ _ _ Hr IH).
  - destruct (VectorIndex.remove_by_key key w) as [o w'] eqn:Hr.
    apply (remove_by_key_spec _ _ _ _ Hr IH).
  - destruct (VectorIndex.clear_agent a w) as [o w'] eqn:Hr.
    apply (clear_agent_spec _ _ _ _ Hr IH).
Qed.

End IndexInvariant.

(** ** Handles are never negative *)

Section Handles.
Context `{External}.





End Handles.

(** ** The filtering loop of [search] *)

Section SearchLoop.
Context `{External}.









End SearchLoop.

(** ** [search], unfolded *)

Section SearchFacts.
Context `{External}.










End SearchFacts.

(** ** Bounded search *)

Section BoundedSearch.
Context `{External}.




End BoundedSearch.

(** ** Erasure *)

Section Erasure.
Context `{External}.


Lemma filter_none {A : Type} (P : A -> Prop) `{forall x, Decision (P x)} (l : list A) :
  (forall x, x ∈ l -> ~ P x) -> filter P l = [].
Proof.
  induction l as [|x l IH]; intros Hno; [reflexivity|].
  rewrite filter_cons. rewrite decide_False by (apply Hno; apply list_elem_of_here).
  apply IH. intros y Hy. apply Hno. apply list_elem_of_further. exact Hy.
Qed.
















End Erasure.

(** ** The model, run *)

Section Runs.
Import Scenario.
#[local] Existing Instance kernel.

(** C1. [add] takes [len(id_to_key)] as the new handle, and a removal
    shrinks that dictionary. After rows 1 and 2 are added (handles 0 and 1)
    and row 1 is removed, row 3 is given handle 1: not greater than the
    handles given before, and the handle row 2 still holds. [id_to_key[1]]
    now names row 3, and FAISS stores two vectors under id 1. Adding the same
    row twice gives handle 0 both times, although the first removal had
    freed it. *)
Theorem add_reuses_handles :
  handle_of two_added tenant_a semantic 1 = Some 0
  /\ handle_of two_added tenant_a semantic 2 = Some 1
  /\ handle_of third_added tenant_a semantic 3 = Some 1
  /\ handle_of third_added tenant_a semantic 2 = Some 1
  /\ id_to_key (vector_index third_added) !! 1
       = Some (VectorIndex._make_key tenant_a semantic 3)
  /\ stored_ids third_added = [0; 1; 1]
  /\ handle_of added_twice tenant_a semantic 1 = Some 0
  /\ stored_ids added_twice = [0; 0].
Proof. vm_compute. repeat split. Qed.

(** C2 fails as stated: the keyword search finds the recorded event, the
    embeddings call fails, and [search_memories] raises instead of
    returning the keyword hit. *)
Lemma search_memories_embedding_failure_raises :
  embeddings_create (py "Paris") = None
  /\ fst (EpisodicStore.search t1 (py "Paris") paris_recorded)
       = Returned [EpisodicItem 1 (content paris) (role paris) 1000]
  /\ ~ (exists hits, fst (MemoryManager.search_memories t1 (py "Paris") paris_recorded)
                       = Returned hits).
Proof.
  split; [reflexivity|]. split; [vm_compute; reflexivity|].
  intros [hits Hh]. vm_compute in Hh. discriminate.
Qed.

Lemma search_memories_embedding_failure_propagates_witness :
  EpisodicStore.search t1 (py "Paris") paris_recorded
    = (Returned [EpisodicItem 1 (content paris) (role paris) 1000], paris_recorded)
  /\ embeddings_create (py "Paris") = None
  /\ MemoryManager.search_memories t1 (py "Paris") paris_recorded
       = (Raised EmbeddingFailure, paris_recorded).
Proof.
  split; [vm_compute; reflexivity|]. split; [reflexivity|].
  apply (search_memories_embedding_failure_propagates t1 (py "Paris") paris_recorded
           paris_recorded [EpisodicItem 1 (content paris) (role paris) 1000]).
  - vm_compute. reflexivity.
  - reflexivity.
Defined.

(** C3. A summary of [t1] is stored with the vector [1,0] in the index. Its
    content is updated: the call returns [True], the row holds the new
    content, the endpoint was asked for the new embedding [0,2], and the
    index is what it was, with the one vector [1,0] of the old content. In
    general [update_memory_content] leaves the index as it is. *)
Theorem update_semantic_leaves_index_stale :
  (forall (E : External) (policy : BasePolicy) (agent_id : pystr) (mem_id : Z)
          (new_content mem_type : pystr) (w : World),
     vector_index (snd (MemoryManager.update_memory_content policy agent_id mem_id
                          new_content mem_type w)) = vector_index w)
  /\ embeddings_create (py "User loves dogs") = Some [0#1; 2#1]%Q
  /\ fst (MemoryManager.update_memory_content DefaultPolicy.policy t1 1
            (py "User loves dogs") semantic summary_indexed) = Returned true
  /\ map s_content
       (semantic_memory (db (exec (MemoryManager.update_memory_content DefaultPolicy.policy
                                     t1 1 (py "User loves dogs") semantic) summary_indexed)))
       = [py "User loves dogs"]
  /\ index (vector_index (exec (MemoryManager.update_memory_content DefaultPolicy.policy
                                  t1 1 (py "User loves dogs") semantic) summary_indexed))
       = [(0, [1#1; 0#1]%Q)].
Proof.
  split.
  - intros E policy agent_id mem_id new_content mem_type w.
    apply update_memory_content_index_frame.
  - vm_compute. repeat split.
Qed.

(** C4. Isolation by key prefix breaks in three ways.
    (1) Agents [a] and [b], no colon in either name: after [a] adds row 1,
    [b] adds row 2, [a] removes row 1 and adds row 3, the rows 3 and 2 share
    handle 1. A search of [a] finds row 3, and twice, once for the vector of
    [b]. [clear_agent(b)] then deletes [id_to_key[1]], the entry of row 3 of
    [a]: the search of [a] finds nothing any more.
    (2) An agent named "b:semantic:9" adds row 9; a search scoped to [b]
    returns 9.
    (3) [clear_agent(b)] removes the entry of the agent "b:c". *)
Theorem tenant_isolation_broken :
  (tenant_a <> tenant_b
   /\ id_to_key (vector_index shared_handle) !! 1
        = Some (VectorIndex._make_key tenant_a semantic 3)
   /\ fst (VectorIndex.search tenant_a (arr 3) 5 shared_handle) = Returned [3; 3]
   /\ fst (VectorIndex.clear_agent tenant_b shared_handle) = Returned tt
   /\ id_to_key (vector_index (exec (VectorIndex.clear_agent tenant_b) shared_handle)) !! 1
        = None
   /\ fst (VectorIndex.search tenant_a (arr 3) 5
             (exec (VectorIndex.clear_agent tenant_b) shared_handle)) = Returned [])
  /\ (tenant_b_semantic_9 <> tenant_b
      /\ fst (VectorIndex.search tenant_b (arr 1) 5 colon_row) = Returned [9])
  /\ (tenant_b_c <> tenant_b
      /\ handle_of colon_prefix tenant_b_c semantic 1 = Some 0
      /\ handle_of (exec (VectorIndex.clear_agent tenant_b) colon_prefix)
           tenant_b_c semantic 1 = None
      /\ id_to_key (vector_index (exec (VectorIndex.clear_agent tenant_b) colon_prefix)) = ∅).
Proof.
  split; [|split].
  - split; [discriminate|]. vm_compute. repeat split.
  - split; [discriminate|]. vm_compute. reflexivity.
  - split; [discriminate|]. vm_compute. repeat split.
Qed.

(** C6 fails as stated: "Hello" has 5 characters once stripped and is not in
    the stop list, and it is rejected with [-1], because the stop list is
    matched against the lower-cased content. *)
Lemma add_event_rejects_capitalised_stop_word :
  5 <= Z.of_nat (length (strip (content hello)))
  /\ (strip (content hello) ∉ DefaultPolicy.stop_list)
  /\ MemoryManager.add_event DefaultPolicy.policy t1 hello w0 = (Returned (-1), w0).
Proof.
  split; [vm_compute; discriminate|]. split; [|vm_compute; reflexivity].
  intros Hin. unfold DefaultPolicy.stop_list in Hin.
  repeat (apply elem_of_cons in Hin as [Hin|Hin]; [vm_compute in Hin; discriminate|]).
  inversion Hin.
Qed.

Lemma add_event_gating_witness :
  should_store_as_episodic DefaultPolicy.policy t1 hello = false
  /\ MemoryManager.add_event DefaultPolicy.policy t1 hello w0 = (Returned (-1), w0)
  /\ should_store_as_episodic DefaultPolicy.policy t1 paris = true
  /\ (exists w',
        MemoryManager.add_event DefaultPolicy.policy t1 paris w0 = (Returned 1, w')
        /\ episodic_memory (db w')
             = [mkEpisodicRow 1 t1 (content paris) (role paris) 1000]).
Proof.
  destruct (add_event_gating DefaultPolicy.policy t1 hello w0) as (Hrej & _ & _).
  destruct (add_event_gating DefaultPolicy.policy t1 paris w0) as (_ & Hadm & _).
  split; [reflexivity|]. split; [apply Hrej; reflexivity|]. split; [reflexivity|].
  destruct (Hadm eq_refl) as [_ Hins]. apply Hins. simpl. discriminate.
Defined.

(** [delete_memory] with the storage failing: the row and the index entry of
    the summary stay. *)
Lemma delete_memory_store_then_index_witness :
  store_delete t1 1 semantic summary_indexed_faulty
    = (Raised StorageFailure, summary_indexed)
  /\ MemoryManager.delete_memory t1 1 semantic summary_indexed_faulty
       = (Raised StorageFailure, summary_indexed)
  /\ vector_index summary_indexed = vector_index summary_indexed_faulty.
Proof.
  assert (Hs : store_delete t1 1 semantic summary_indexed_faulty
               = (Raised StorageFailure, summary_indexed)) by (vm_compute; reflexivity).
  split; [exact Hs|].
  apply (proj1 (delete_memory_store_then_index t1 1 semantic summary_indexed_faulty
                  summary_indexed (Raised StorageFailure) Hs)).
  discriminate.
Defined.

(** C8 fails as stated: thirty events are let in (ids 1 to 30) and no
    promotion check runs at 10, 20 or 30. No summary and no index entry
    exists afterwards, and the run is the same under a policy whose trigger
    always answers [True] and under one whose trigger never does; so is the
    run in which event 3 is deleted after the tenth event. *)
Lemma thirty_events_trigger_nothing :
  fst (record_events DefaultPolicy.policy 30 w0) = map (fun i => Returned (Z.of_nat i)) (seq 1 30)
  /\ length (episodic_memory (db (snd (record_events DefaultPolicy.policy 30 w0)))) = 30%nat
  /\ semantic_memory (db (snd (record_events DefaultPolicy.policy 30 w0))) = []
  /\ vector_index (snd (record_events DefaultPolicy.policy 30 w0)) = vector_index w0
  /\ record_events (with_trigger true) 30 w0 = record_events DefaultPolicy.policy 30 w0
  /\ record_events (with_trigger false) 30 w0 = record_events DefaultPolicy.policy 30 w0
  /\ record_delete_record (with_trigger true) = record_delete_record DefaultPolicy.policy
  /\ record_delete_record (with_trigger false) = record_delete_record DefaultPolicy.policy
  /\ semantic_memory (db (snd (record_delete_record DefaultPolicy.policy))) = [].
Proof. vm_compute. repeat split. Qed.

Lemma promotion_trigger_multiples_of_10_witness :
  DefaultPolicy.should_summarize_to_semantic t1 20 = true
  /\ MemoryManager.add_event (with_trigger true) t1 paris w0
     = MemoryManager.add_event DefaultPolicy.policy t1 paris w0
  /\ semantic_memory (db (exec (MemoryManager.add_event DefaultPolicy.policy t1 paris) w0))
     = semantic_memory (db w0).
Proof.
  destruct (promotion_trigger_multiples_of_10 t1) as (Hiff & _ & Hsame & Hnone).
  split; [apply Hiff; exists 2; reflexivity|].
  split; [apply Hsame; reflexivity|].
  exact (proj1 (Hnone DefaultPolicy.policy paris w0)).
Defined.


Lemma uncrowded_reachable : reachable (vector_index uncrowded).
Proof.
  unfold uncrowded, exec. do 3 apply reachable_add. apply reachable_init.
Qed.


Lemma add_and_search_normalize_in_place_witness :
  heap w0 !! buffer (arr 3) = Some [3#1; 4#1]%Q
  /\ fst (VectorIndex.add t1 semantic 1 (arr 3) w0) = Returned tt
  /\ heap (exec (VectorIndex.add t1 semantic 1 (arr 3)) w0) !! buffer (arr 3)
       = Some [3#5; 4#5]%Q
  /\ fst (VectorIndex.search t1 (arr 3) 5 w0) = Returned []
  /\ heap (exec (VectorIndex.search t1 (arr 3) 5) w0) !! buffer (arr 3)
       = Some [3#5; 4#5]%Q.
Proof.
  destruct (add_and_search_normalize_in_place t1 semantic 1 5 (arr 3) [3#1; 4#1]%Q w0)
    as [Hadd Hsearch]; [reflexivity|].
  split; [reflexivity|]. split; [vm_compute; reflexivity|]. split.
  - apply (Hadd (exec (VectorIndex.add t1 semantic 1 (arr 3)) w0)). vm_compute. reflexivity.
  - split; [vm_compute; reflexivity|].
    apply (Hsearch [] (exec (VectorIndex.search t1 (arr 3) 5) w0)). vm_compute. reflexivity.
Defined.

Lemma two_tenants_reachable : reachable (vector_index two_tenants).
Proof.
  unfold two_tenants, exec.
  apply reachable_add.
  replace (vector_index _) with (vector_index summary_indexed) by (vm_compute; reflexivity).
  unfold summary_indexed, exec.
  apply reachable_add. apply (reachable_init 2).
Qed.


End Runs.

(** * Further properties *)

(** ** Keys round-trip *)

Section KeyRoundTrip.
Context `{External}.

Lemma lstrip_no_space (s : pystr) :
  Forall (fun c => is_space c = false) s -> lstrip s = s.
Proof. intros Hs. destruct Hs as [|c s Hc _]; simpl; [reflexivity|]. rewrite Hc. reflexivity. Qed.

Lemma strip_no_space (s : pystr) :
  Forall (fun c => is_space c = false) s -> strip s = s.
Proof.
  intros Hs. unfold strip. rewrite (lstrip_no_space s Hs).
  rewrite lstrip_no_space.
  - apply rev_involutive.
  - apply Forall_rev. exact Hs.
Qed.

Lemma uint_digits_range (u : Decimal.uint) :
  Forall (fun c => (48 <= c <= 57)%N) (uint_digits u).
Proof. induction u; simpl; constructor; auto; lia. Qed.

Lemma digit_not_space (c : N) : (48 <= c <= 57)%N -> is_space c = false.
Proof.
  intros Hc. unfold is_space.
  repeat match goal with
         | |- context [(?a <=? ?b)%N] => destruct (N.leb_spec a b); try lia
         | |- context [(?a =? ?b)%N] => destruct (N.eqb_spec a b); try lia
         end; reflexivity.
Qed.

Lemma split_no_sep (sep : N) (s : pystr) : sep ∉ s -> split sep s = [s].
Proof.
  induction s as [|c s IH]; intros Hn; simpl; [reflexivity|].
  rewrite not_elem_of_cons in Hn. destruct Hn as [Hc Hs].
  destruct (N.eqb_spec c sep); [congruence|]. rewrite (IH Hs). reflexivity.
Qed.

Lemma split_first (sep : N) (a rest : pystr) :
  sep ∉ a -> split sep (a ++ sep :: rest) = a :: split sep rest.
Proof.
  induction a as [|c a IH]; intros Hn; simpl.
  - rewrite N.eqb_refl. reflexivity.
  - rewrite not_elem_of_cons in Hn. destruct Hn as [Hc Ha].
    destruct (N.eqb_spec c sep); [congruence|]. rewrite (IH Ha). reflexivity.
Qed.

Lemma horner_of_uint_acc (u : Decimal.uint) (p : positive) :
  Z.pos (Pos.of_uint_acc u p) = horner u (Z.pos p).
Proof.
  revert p. induction u; intros p; simpl; try reflexivity; rewrite IHu; f_equal; lia.
Qed.

Lemma horner_of_uint (u : Decimal.uint) : Z.of_N (Pos.of_uint u) = horner u 0.
Proof.
  induction u; simpl; try reflexivity; try exact IHu; apply horner_of_uint_acc.
Qed.

Lemma int_digits_uint (u : Decimal.uint) (acc : Z) :
  ascii_digits_known ->
  VectorIndex.int_digits (uint_digits u) acc true = Some (horner u acc).
Proof.
  intros Hd. revert acc.
  induction u; intros acc; simpl; try reflexivity;
    match goal with
    | |- context [unicode_decimal ?c] =>
        match goal with
        | |- context [horner _ (10 * acc + ?d)] =>
            replace (unicode_decimal c) with (Some d) by (symmetry; apply (Hd d); lia)
        end
    end; apply IHu.
Qed.

Lemma int_digits_uint_start (u : Decimal.uint) :
  ascii_digits_known -> u <> Decimal.Nil ->
  VectorIndex.int_digits (uint_digits u) 0 false = Some (horner u 0).
Proof.
  intros Hd Hu. destruct u; [congruence| ..]; simpl;
    match goal with
    | |- context [unicode_decimal ?c] =>
        match goal with
        | |- context [horner _ ?d] =>
            replace (unicode_decimal c) with (Some d) by (symmetry; apply (Hd d); lia)
        end
    end; apply (int_digits_uint _ _ Hd).
Qed.

Lemma uint_digits_head (u : Decimal.uint) :
  match uint_digits u with
  | c :: _ => c <> 43%N /\ c <> 45%N
  | [] => True
  end.
Proof. destruct u; simpl; auto; split; discriminate. Qed.

Lemma int_of_str_pos (p : positive) :
  ascii_digits_known ->
  VectorIndex.int_of_str (uint_digits (Pos.to_uint p)) = Returned (Z.pos p).
Proof.
  intros Hd. unfold VectorIndex.int_of_str.
  rewrite strip_no_space
    by (eapply Forall_impl; [apply uint_digits_range|apply digit_not_space]).
  pose proof (uint_digits_head (Pos.to_uint p)) as Hh.
  pose proof (int_digits_uint_start (Pos.to_uint p) Hd (DecimalPos.Unsigned.to_uint_nonnil p)) as Hv.
  rewrite <- horner_of_uint, DecimalPos.Unsigned.of_to in Hv. simpl in Hv.
  destruct (uint_digits (Pos.to_uint p)) as [|c s]; [discriminate|].
  destruct Hh as [H43 H45].
  destruct c as [|c]; [rewrite Hv; reflexivity|].
  repeat (destruct c as [c|c|]; try (rewrite Hv; reflexivity); try congruence).
Qed.

Lemma int_of_str_of_int (n : Z) :
  ascii_digits_known -> VectorIndex.int_of_str (str_of_int n) = Returned n.
Proof.
  intros Hd. destruct n as [|p|p]; unfold str_of_int; simpl Z.to_int; cbv iota.
  - unfold VectorIndex.int_of_str. simpl.
    replace (unicode_decimal 48%N) with (Some 0) by (symmetry; apply (Hd 0); lia).
    reflexivity.
  - apply int_of_str_pos. exact Hd.
  - pose proof (int_of_str_pos p Hd) as Hp. unfold VectorIndex.int_of_str in *.
    assert (Hns : Forall (fun c => is_space c = false) (45%N :: uint_digits (Pos.to_uint p))).
    { constructor; [reflexivity|].
      eapply Forall_impl; [apply uint_digits_range|apply digit_not_space]. }
    rewrite (strip_no_space _ Hns).
    rewrite strip_no_space in Hp
      by (eapply Forall_impl; [apply uint_digits_range|apply digit_not_space]).
    pose proof (uint_digits_head (Pos.to_uint p)) as Hh.
    destruct (uint_digits (Pos.to_uint p)) as [|c s] eqn:Hu.
    + simpl in Hp. discriminate.
    + destruct Hh as [H43 H45].
      assert (Hd' : VectorIndex.int_digits (c :: s) 0 false = Some (Z.pos p)).
      { destruct c as [|c]; [destruct (VectorIndex.int_digits _ 0 false); congruence|].
        repeat (destruct c as [c|c|];
                try (destruct (VectorIndex.int_digits _ 0 false); congruence);
                try congruence). }
      rewrite Hd'. reflexivity.
Qed.

Lemma str_of_int_no_colon (n : Z) : colon ∉ str_of_int n.
Proof.
  assert (Hu : forall u, colon ∉ uint_digits u).
  { intros u Hin. pose proof (uint_digits_range u) as Hr.
    rewrite Forall_forall in Hr. apply Hr in Hin. unfold colon in Hin. lia. }
  unfold str_of_int. destruct (Z.to_int n); [apply Hu|].
  rewrite not_elem_of_cons. split; [discriminate|apply Hu].
Qed.

(** X1. A key built from an agent id and a type without a colon parses back
    to the three parts it was built from, when the runtime reads the ASCII
    digits as themselves. *)
Theorem parse_key_make_key (agent_id mem_type : pystr) (mem_id : Z) :
  ascii_digits_known ->
  colon ∉ agent_id -> colon ∉ mem_type ->
  VectorIndex._parse_key (VectorIndex._make_key agent_id mem_type mem_id)
    = Returned (agent_id, mem_type, mem_id).
Proof.
  intros Hd Ha Ht. unfold VectorIndex._parse_key, VectorIndex._make_key. simpl.
  rewrite (split_first _ _ _ Ha), (split_first _ _ _ Ht),
    (split_no_sep _ _ (str_of_int_no_colon mem_id)). simpl.
  rewrite (int_of_str_of_int _ Hd). reflexivity.
Qed.

End KeyRoundTrip.

(** ** The index, method by method *)

Section IndexMethods.
Context `{External}.

Lemma remove_by_key_unregisters (key : pystr) (w : World) :
  Dict.get key (key_to_id (vector_index (snd (VectorIndex.remove_by_key key w)))) = None.
Proof.
  unfold VectorIndex.remove_by_key.
  destruct (Dict.get key (key_to_id (vector_index w))) as [fid|] eqn:Hg; [|exact Hg].
  simpl. destruct (id_to_key (vector_index w) !! fid); simpl; apply get_del_eq.
Qed.

Lemma remove_by_key_missing (key : pystr) (w : World) :
  Dict.get key (key_to_id (vector_index w)) = None ->
  VectorIndex.remove_by_key key w = (Returned tt, w).
Proof. unfold VectorIndex.remove_by_key. intros ->. reflexivity. Qed.

(** X2. Removing is idempotent: whatever a first [remove] did, returning or
    raising [KeyError] on a handle that was no longer live, a second
    [remove] of the same entry returns and changes nothing. *)
Theorem remove_twice (agent_id mem_type : pystr) (mem_id : Z) (w : World) :
  VectorIndex.remove agent_id mem_type mem_id
    (snd (VectorIndex.remove agent_id mem_type mem_id w))
  = (Returned tt, snd (VectorIndex.remove agent_id mem_type mem_id w)).
Proof.
  unfold VectorIndex.remove. apply remove_by_key_missing. apply remove_by_key_unregisters.
Qed.

(** X3. In every state the methods can leave the index in, a key has at
    most one live handle, and it is the handle the key is registered
    under. *)
Theorem one_live_handle_per_key (vi : IndexState) (h h' : Z) (key : pystr) :
  reachable vi ->
  id_to_key vi !! h = Some key -> id_to_key vi !! h' = Some key ->
  h = h' /\ Dict.get key (key_to_id vi) = Some h.
Proof.
  intros Hr Hh Hh'. apply reachable_consistent in Hr.
  pose proof (Hr _ _ Hh) as Hg. pose proof (Hr _ _ Hh') as Hg'.
  split; [congruence|exact Hg].
Qed.

(** The state after the optional removal that opens [add]. *)
Lemma add_unfold (agent_id mem_type : pystr) (mem_id : Z) (e : ndarray) (w : World) :
  let key := VectorIndex._make_key agent_id mem_type mem_id in
  VectorIndex.add agent_id mem_type mem_id e w =
    match (if Dict.contains key (key_to_id (vector_index w))
           then VectorIndex.remove_by_key key w else (Returned tt, w)) with
    | (Returned _, w1) =>
        let fid := Z.of_nat (size (id_to_key (vector_index w1))) in
        let vi2 :=
          set_key_to_id (Dict.set key fid (key_to_id (vector_index w1)))
            (set_id_to_key (<[fid := key]> (id_to_key (vector_index w1))) (vector_index w1)) in
        (let! emb_2d := Np.reshape_row e in
         Faiss.normalize_L2_inplace emb_2d ;;; Faiss.add_with_ids emb_2d fid)
          (set_vector_index vi2 w1)
    | (Raised x, w1) => (Raised x, w1)
    end.
Proof.
  intros key. unfold VectorIndex.add. fold key. unfold bind at 1, bind at 1, gets.
  destruct (Dict.contains key (key_to_id (vector_index w))).
  - destruct (VectorIndex.remove_by_key key w) as [[[]|x] w1]; reflexivity.
  - reflexivity.
Qed.

(** Storing a vector of the right length. *)
Lemma store_vector_returns (e : ndarray) (fid : Z) (w : World) (v : list Q) :
  heap w !! buffer e = Some v -> v <> [] ->
  (let! emb_2d := Np.reshape_row e in
   Faiss.normalize_L2_inplace emb_2d ;;; Faiss.add_with_ids emb_2d fid) w
  = if Nat.eqb (length v) (dim (vector_index w))
    then (Returned tt,
          set_vector_index
            (set_index (index (vector_index w) ++ [(fid, normalize_L2 v)]) (vector_index w))
            (set_heap (<[buffer e := normalize_L2 v]> (heap w)) w))
    else (Raised AssertionError, set_heap (<[buffer e := normalize_L2 v]> (heap w)) w).
Proof.
  intros Hv Hne. unfold bind. rewrite (reshape_row_returns _ _ _ Hv Hne).
  unfold Faiss.normalize_L2_inplace, Faiss.add_with_ids. simpl. rewrite Hv. simpl.
  rewrite lookup_insert_eq. destruct (Nat.eqb (length v) (dim (vector_index w))); reflexivity.
Qed.

Lemma store_vector_returned (e : ndarray) (fid : Z) (w w' : World) :
  (let! emb_2d := Np.reshape_row e in
   Faiss.normalize_L2_inplace emb_2d ;;; Faiss.add_with_ids emb_2d fid) w = (Returned tt, w') ->
  exists v, heap w !! buffer e = Some v /\ v <> [] /\ length v = dim (vector_index w)
    /\ w' = set_vector_index
              (set_index (index (vector_index w) ++ [(fid, normalize_L2 v)]) (vector_index w))
              (set_heap (<[buffer e := normalize_L2 v]> (heap w)) w).
Proof.
  intros Hs. destruct (heap w !! buffer e) as [v|] eqn:Hv.
  - destruct (decide (v = [])) as [->|Hne].
    + unfold bind, Np.reshape_row in Hs. rewrite Hv in Hs. discriminate.
    + rewrite (store_vector_returns _ _ _ _ Hv Hne) in Hs.
      destruct (Nat.eqb_spec (length v) (dim (vector_index w))); [|discriminate].
      injection Hs as <-. eauto.
  - unfold bind, Np.reshape_row in Hs. rewrite Hv in Hs. discriminate.
Qed.

(** X4. When [add] returns, the key is registered under a handle, that
    handle is live for the key, and FAISS holds exactly one vector more: the
    normalised vector of the caller, under that handle. The vector has the
    dimension of the index. *)
Theorem add_registers (agent_id mem_type : pystr) (mem_id : Z) (e : ndarray) (w w' : World) :
  VectorIndex.add agent_id mem_type mem_id e w = (Returned tt, w') ->
  exists h v,
    heap w !! buffer e = Some v
    /\ length v = dim (vector_index w)
    /\ Dict.get (VectorIndex._make_key agent_id mem_type mem_id)
         (key_to_id (vector_index w')) = Some h
    /\ id_to_key (vector_index w') !! h
         = Some (VectorIndex._make_key agent_id mem_type mem_id)
    /\ index (vector_index w') = index (vector_index w) ++ [(h, normalize_L2 v)]
    /\ dim (vector_index w') = dim (vector_index w).
Proof.
  rewrite add_unfold. cbv zeta.
  set (key := VectorIndex._make_key agent_id mem_type mem_id).
  assert (Hpre : forall o w1,
            (if Dict.contains key (key_to_id (vector_index w))
             then VectorIndex.remove_by_key key w else (Returned tt, w)) = (o, w1) ->
            heap w1 = heap w /\ index (vector_index w1) = index (vector_index w)
            /\ dim (vector_index w1) = dim (vector_index w)).
  { intros o w1. destruct (Dict.contains key (key_to_id (vector_index w))).
    - unfold VectorIndex.remove_by_key.
      destruct (Dict.get key (key_to_id (vector_index w))) as [fid|];
        [|intros [= _ <-]; auto].
      simpl. destruct (id_to_key (vector_index w) !! fid); intros [= _ <-]; auto.
    - intros [= _ <-]. auto. }
  destruct (if Dict.contains key (key_to_id (vector_index w))
            then VectorIndex.remove_by_key key w else (Returned tt, w))
    as [[[]|x] w1] eqn:Hfirst; [|discriminate].
  destruct (Hpre _ _ eq_refl) as (Hheap & Hidx & Hdim).
  intros Hs. apply store_vector_returned in Hs as (v & Hv & _ & Hlen & ->).
  simpl in *. exists (Z.of_nat (size (id_to_key (vector_index w1)))), v.
  rewrite Hheap in Hv. rewrite Hdim in Hlen. rewrite Hidx, Hdim.
  split; [exact Hv|]. split; [exact Hlen|]. split; [apply get_set_eq|].
  split; [apply lookup_insert_eq|]. split; reflexivity.
Qed.

(** X5. An [add] of a new key with a vector of the wrong length raises
    [AssertionError] only after both dictionaries were written: the key is
    left registered and live under a handle for which FAISS stores no new
    vector, and the array of the caller has been normalised. *)
Theorem add_wrong_dimension (agent_id mem_type : pystr) (mem_id : Z) (e : ndarray)
    (w : World) (v : list Q) :
  heap w !! buffer e = Some v -> v <> [] ->
  length v <> dim (vector_index w) ->
  Dict.get (VectorIndex._make_key agent_id mem_type mem_id) (key_to_id (vector_index w)) = None ->
  exists w',
    VectorIndex.add agent_id mem_type mem_id e w = (Raised AssertionError, w')
    /\ Dict.get (VectorIndex._make_key agent_id mem_type mem_id) (key_to_id (vector_index w'))
         = Some (Z.of_nat (size (id_to_key (vector_index w))))
    /\ id_to_key (vector_index w') !! Z.of_nat (size (id_to_key (vector_index w)))
         = Some (VectorIndex._make_key agent_id mem_type mem_id)
    /\ index (vector_index w') = index (vector_index w)
    /\ heap w' !! buffer e = Some (normalize_L2 v).
Proof.
  intros Hv Hne Hlen Hnew. rewrite add_unfold. cbv zeta.
  unfold Dict.contains. rewrite Hnew.
  rewrite (store_vector_returns _ _ _ v) by (simpl; assumption).
  simpl. destruct (Nat.eqb_spec (length v) (dim (vector_index w))); [congruence|].
  eexists. split; [reflexivity|]. simpl.
  split; [apply get_set_eq|]. split; [apply lookup_insert_eq|].
  split; [reflexivity|apply lookup_insert_eq].
Qed.

Lemma remove_by_key_index (key : pystr) (w : World) :
  index (vector_index (snd (VectorIndex.remove_by_key key w))) = index (vector_index w).
Proof.
  unfold VectorIndex.remove_by_key.
  destruct (Dict.get key (key_to_id (vector_index w))) as [fid|]; [|reflexivity].
  simpl. destruct (id_to_key (vector_index w) !! fid); reflexivity.
Qed.

Lemma remove_each_index (keys : list pystr) (w : World) :
  index (vector_index (snd (VectorIndex.remove_each keys w))) = index (vector_index w).
Proof.
  revert w. induction keys as [|k keys IH]; intros w; simpl; [reflexivity|].
  unfold bind. pose proof (remove_by_key_index k w) as Hk.
  destruct (VectorIndex.remove_by_key k w) as [[[]|x] w1]; simpl in *.
  - rewrite IH. exact Hk.
  - exact Hk.
Qed.

(** X6. Deletion is logical only: [remove], [remove_by_key], [clear_agent]
    and [search] leave the vectors FAISS stores exactly as they are, and
    [add] either leaves them or appends one. No method ever takes a stored
    vector away. *)
Theorem stored_vectors_never_removed (w : World) :
  (forall key, index (vector_index (snd (VectorIndex.remove_by_key key w)))
               = index (vector_index w))
  /\ (forall a t m, index (vector_index (snd (VectorIndex.remove a t m w)))
                    = index (vector_index w))
  /\ (forall a, index (vector_index (snd (VectorIndex.clear_agent a w)))
                = index (vector_index w))
  /\ (forall a q k, index (vector_index (snd (VectorIndex.search a q k w)))
                    = index (vector_index w))
  /\ (forall a t m e,
        index (vector_index (snd (VectorIndex.add a t m e w))) = index (vector_index w)
        \/ exists h v, index (vector_index (snd (VectorIndex.add a t m e w)))
                       = index (vector_index w) ++ [(h, v)]).
Proof.
  split; [|split; [|split; [|split]]].
  - intros key. apply remove_by_key_index.
  - intros a t m. apply remove_by_key_index.
  - intros a. unfold VectorIndex.clear_agent, bind, gets. apply remove_each_index.
  - intros a q k. destruct (search_frame a q k w) as [-> _]. reflexivity.
  - intros a t m e. rewrite add_unfold. cbv zeta.
    set (key := VectorIndex._make_key a t m).
    assert (Hfirst : index (vector_index
                       (snd (if Dict.contains key (key_to_id (vector_index w))
                             then VectorIndex.remove_by_key key w else (Returned tt, w))))
                     = index (vector_index w)).
    { destruct (Dict.contains key _); [apply remove_by_key_index|reflexivity]. }
    destruct (if Dict.contains key (key_to_id (vector_index w))
              then VectorIndex.remove_by_key key w else (Returned tt, w))
      as [[[]|x] w1]; simpl in Hfirst; [|left; exact Hfirst].
    match goal with |- context [snd (?t ?w2)] => destruct (t w2) as [o w3] eqn:Ht end.
    unfold bind, Np.reshape_row, Faiss.normalize_L2_inplace, Faiss.add_with_ids in Ht.
    simpl in Ht.
    destruct (heap w1 !! buffer e) as [[|c v]|] eqn:Hh;
      try (injection Ht as <- <-; left; exact Hfirst).
    simpl in Ht. rewrite Hh in Ht. simpl in Ht. rewrite lookup_insert_eq in Ht.
    match type of Ht with context [if ?b then _ else _] => destruct b end;
      injection Ht as <- <-; simpl; rewrite <- Hfirst; eauto.
Qed.

End IndexMethods.

(** ** Handles without removal, and clearing without shared handles *)

Section HandleDiscipline.
Context `{External}.

Lemma init_dense (d : nat) : dense (VectorIndex.__init__ d).
Proof.
  intros h. simpl. rewrite lookup_empty, map_size_empty. split.
  - intros [x Hx]. discriminate.
  - lia.
Qed.

(** X7. While the live handles are [0 .. n-1], as they are as long as
    nothing has been removed, [add] of a key that is not registered takes
    the handle [n], which no entry holds; every live entry stays, and the
    handles are [0 .. n] afterwards. This holds also when FAISS then refuses
    the vector. *)
Theorem add_fresh_handle_when_dense (agent_id mem_type : pystr) (mem_id : Z) (e : ndarray)
    (w : World) :
  dense (vector_index w) ->
  Dict.get (VectorIndex._make_key agent_id mem_type mem_id) (key_to_id (vector_index w)) = None ->
  id_to_key (vector_index w) !! Z.of_nat (size (id_to_key (vector_index w))) = None
  /\ Dict.get (VectorIndex._make_key agent_id mem_type mem_id)
       (key_to_id (vector_index (snd (VectorIndex.add agent_id mem_type mem_id e w))))
     = Some (Z.of_nat (size (id_to_key (vector_index w))))
  /\ (forall h k, id_to_key (vector_index w) !! h = Some k ->
        id_to_key (vector_index (snd (VectorIndex.add agent_id mem_type mem_id e w))) !! h
        = Some k)
  /\ dense (vector_index (snd (VectorIndex.add agent_id mem_type mem_id e w))).
Proof.
  intros Hd Hnew.
  set (n := Z.of_nat (size (id_to_key (vector_index w)))).
  assert (Hfree : id_to_key (vector_index w) !! n = None).
  { destruct (id_to_key (vector_index w) !! n) eqn:Hl; [|reflexivity].
    assert (Hs : is_Some (id_to_key (vector_index w) !! n)) by eauto.
    apply Hd in Hs. unfold n in Hs. lia. }
  rewrite add_unfold. cbv zeta. unfold Dict.contains. rewrite Hnew. fold n.
  match goal with |- context [snd (?t ?w2)] =>
    destruct (t w2) as [o w3] eqn:Ht end.
  apply store_vector_frame in Ht as [Hi Hk]. simpl in *. rewrite Hi, Hk.
  split; [exact Hfree|]. split; [apply get_set_eq|]. split.
  - intros h k Hl. rewrite lookup_insert_ne; [exact Hl|]. congruence.
  - intros h. rewrite Hi. simpl. rewrite lookup_insert_is_Some.
    rewrite (map_size_insert_None _ _ _ Hfree). rewrite (Hd h). fold n.
    split.
    + intros [<-|[Hne Hr]]; lia.
    + intros Hr. destruct (decide (n = h)); [left; assumption|right; split; [assumption|lia]].
Qed.

Lemma get_del_Some {V : Type} (k k' : pystr) (v : V) (d : list (pystr * V)) :
  Dict.get k' (Dict.del k d) = Some v -> Dict.get k' d = Some v.
Proof.
  destruct (decide (k = k')) as [->|Hne].
  - rewrite get_del_eq. discriminate.
  - rewrite get_del_ne by exact Hne. auto.
Qed.

Lemma remove_by_key_keeps (k key : pystr) (h : Z) (w : World) :
  consistent (vector_index w) -> unshared_handles (vector_index w) ->
  k <> key ->
  id_to_key (vector_index w) !! h = Some key ->
  id_to_key (vector_index (snd (VectorIndex.remove_by_key k w))) !! h = Some key
  /\ unshared_handles (vector_index (snd (VectorIndex.remove_by_key k w))).
Proof.
  intros Hc Hu Hne Hl. unfold VectorIndex.remove_by_key.
  destruct (Dict.get k (key_to_id (vector_index w))) as [fid|] eqn:Hg; [|auto].
  assert (Hfid : fid <> h).
  { intros ->. apply Hne. apply (Hu k key h); [exact Hg|apply Hc; exact Hl]. }
  assert (Hu' : forall k1 k2 h0,
            Dict.get k1 (Dict.del k (key_to_id (vector_index w))) = Some h0 ->
            Dict.get k2 (Dict.del k (key_to_id (vector_index w))) = Some h0 -> k1 = k2).
  { intros k1 k2 h0 H1 H2. apply get_del_Some in H1, H2. eapply Hu; eauto. }
  simpl. destruct (id_to_key (vector_index w) !! fid); simpl.
  - rewrite lookup_delete_ne by exact Hfid. auto.
  - auto.
Qed.

Lemma remove_each_keeps (keys : list pystr) (key : pystr) (h : Z) (w : World) :
  consistent (vector_index w) -> unshared_handles (vector_index w) ->
  key ∉ keys ->
  id_to_key (vector_index w) !! h = Some key ->
  id_to_key (vector_index (snd (VectorIndex.remove_each keys w))) !! h = Some key.
Proof.
  revert w. induction keys as [|k keys IH]; intros w Hc Hu Hnin Hl; simpl; [exact Hl|].
  rewrite not_elem_of_cons in Hnin. destruct Hnin as [Hne Hnin].
  destruct (remove_by_key_keeps k key h w Hc Hu (not_eq_sym Hne) Hl) as [Hl1 Hu1].
  unfold bind. destruct (VectorIndex.remove_by_key k w) as [[[]|x] w1] eqn:Hr; simpl in *.
  - apply IH; auto. apply (remove_by_key_spec _ _ _ _ Hr Hc).
  - exact Hl1.
Qed.

(** X8. When no two registered keys share a handle, [clear_agent] takes away
    nothing but the keys that start with the prefix of its agent: a live
    entry whose key does not start with that prefix is live afterwards, and
    registered under the same handle. *)
Theorem clear_agent_keeps_other_keys (agent_id key : pystr) (h : Z) (w : World) :
  reachable (vector_index w) -> unshared_handles (vector_index w) ->
  startswith key (agent_id ++ [colon]) = false ->
  id_to_key (vector_index w) !! h = Some key ->
  id_to_key (vector_index (snd (VectorIndex.clear_agent agent_id w))) !! h = Some key
  /\ Dict.get key (key_to_id (vector_index (snd (VectorIndex.clear_agent agent_id w))))
     = Some h.
Proof.
  intros Hr Hu Hs Hl. pose proof (reachable_consistent _ Hr) as Hc.
  assert (Hkeep : id_to_key (vector_index (snd (VectorIndex.clear_agent agent_id w))) !! h
                  = Some key).
  { unfold VectorIndex.clear_agent, bind, gets. apply remove_each_keeps; auto.
    intros Hin. apply list_elem_of_filter in Hin as [Hp _]. congruence. }
  split; [exact Hkeep|].
  assert (Hr' : reachable (vector_index (snd (VectorIndex.clear_agent agent_id w))))
    by (apply reachable_clear_agent; exact Hr).
  apply (reachable_consistent _ Hr'). exact Hkeep.
Qed.

End HandleDiscipline.

(** ** LIKE *)

Section Like.








End Like.

(** ** The event store: queries *)

Section StoreQueries.

Lemma connect_then {A : Type} (body : M World A) (w w' : World) (o : outcome A) :
  (Sql.connect ;;; body) w = (o, w') ->
  (exists w0, body w0 = (o, w') /\ db w0 = db w /\ vector_index w0 = vector_index w
              /\ heap w0 = heap w /\ now w0 = now w)
  \/ (o = Raised StorageFailure /\ db w' = db w /\ vector_index w' = vector_index w
      /\ heap w' = heap w).
Proof.
  unfold bind, Sql.connect. destruct (io_faults w) as [|[] fs].
  - intros Hb. left. exists w. auto.
  - intros [= <- <-]. right. auto.
  - intros Hb. left. eexists. split; [exact Hb|]. auto.
Qed.

Lemma connect_then_no_fault {A : Type} (body : M World A) (w : World) :
  io_faults w = [] -> (Sql.connect ;;; body) w = body w.
Proof.
  intros Hf. unfold bind. unfold Sql.connect. rewrite Hf. reflexivity.
Qed.

Lemma order_insert_Permutation {A : Type} (key : A -> Z) (r : A) (l : list A) :
  Sql.order_insert key r l ≡ₚ r :: l.
Proof.
  induction l as [|t l IH]; simpl; [reflexivity|].
  destruct (key r <=? key t); [|reflexivity]. rewrite IH. apply perm_swap.
Qed.

Lemma order_by_desc_Permutation {A : Type} (key : A -> Z) (l : list A) :
  Sql.order_by_desc key l ≡ₚ l.
Proof.
  induction l as [|r l IH]; simpl; [reflexivity|].
  rewrite order_insert_Permutation, IH. reflexivity.
Qed.

Lemma order_insert_sorted {A : Type} (key : A -> Z) (r : A) (l : list A) :
  Sorted (fun x y => key y <= key x) l ->
  Sorted (fun x y => key y <= key x) (Sql.order_insert key r l).
Proof.
  induction 1 as [|t l Hs IH Hhd]; simpl.
  - repeat constructor.
  - destruct (Z.leb_spec (key r) (key t)) as [Hle|Hgt].
    + constructor; [exact IH|].
      destruct Hhd as [|u l Hu]; simpl.
      * constructor. exact Hle.
      * destruct (key r <=? key u); constructor; assumption.
    + constructor; [constructor; assumption|]. constructor. lia.
Qed.

Lemma order_by_desc_sorted {A : Type} (key : A -> Z) (l : list A) :
  Sorted (fun x y => key y <= key x) (Sql.order_by_desc key l).
Proof.
  induction l as [|r l IH]; simpl; [constructor|]. apply order_insert_sorted. exact IH.
Qed.

Lemma limit_sublist {A : Type} (n : Z) (l : list A) : Sql.limit n l `sublist_of` l.
Proof. unfold Sql.limit. destruct (n <? 0); [reflexivity|apply sublist_take]. Qed.

Lemma limit_length {A : Type} (n : Z) (l : list A) :
  0 <= n -> Z.of_nat (length (Sql.limit n l)) <= n.
Proof.
  intros Hn. unfold Sql.limit. destruct (Z.ltb_spec n 0); [lia|].
  rewrite length_take. lia.
Qed.

Lemma limit_all {A : Type} (n : Z) (l : list A) :
  n < 0 \/ Z.of_nat (length l) <= n -> Sql.limit n l = l.
Proof.
  intros Hn. unfold Sql.limit. destruct (Z.ltb_spec n 0); [reflexivity|].
  apply take_ge. lia.
Qed.

Lemma sorted_sublist {A : Type} (R : A -> A -> Prop) (l1 l2 : list A) :
  Transitive R -> l1 `sublist_of` l2 -> Sorted R l2 -> Sorted R l1.
Proof.
  intros HR Hsub Hs. apply Sorted_StronglySorted in Hs; [|exact HR].
  apply StronglySorted_Sorted. revert Hs.
  induction Hsub as [|x l1 l2 Hsub IH|x l1 l2 Hsub IH]; intros Hs.
  - constructor.
  - inversion Hs as [|? ? Hs' Hall]; subst. constructor; [auto|].
    rewrite Forall_forall in *. intros y Hy. apply Hall.
    eapply elem_of_sublist; eauto.
  - inversion Hs; subst. auto.
Qed.

Lemma owned_episodic (agent_id : pystr) (r : episodic_row) :
  EpisodicStore.owned agent_id r = true <-> e_agent_id r = agent_id.
Proof. unfold EpisodicStore.owned. apply str_eqb_eq. Qed.

Lemma owned_semantic (agent_id : pystr) (r : semantic_row) :
  SemanticStore.owned agent_id r = true <-> s_agent_id r = agent_id.
Proof. unfold SemanticStore.owned. apply str_eqb_eq. Qed.


(** X11. When [list_by_agent_recent] returns, it returns rows of the agent
    only, newest timestamp first, at most [limit] of them for a limit that
    is not negative; it returns every row of the agent when the limit is
    negative or not smaller than their number. *)
Theorem list_by_agent_recent_limit (agent_id : pystr) (limit : Z) (w w' : World)
    (items : list memory_item) :
  EpisodicStore.list_by_agent_recent agent_id limit w = (Returned items, w') ->
  exists rows,
    items = map EpisodicStore.to_dict rows
    /\ (forall r, r ∈ rows -> r ∈ episodic_memory (db w) /\ e_agent_id r = agent_id)
    /\ Sorted (fun x y => e_timestamp y <= e_timestamp x) rows
    /\ (0 <= limit -> Z.of_nat (length rows) <= limit)
    /\ (limit < 0
        \/ Z.of_nat (length (filter (fun r => e_agent_id r = agent_id)
                               (episodic_memory (db w)))) <= limit ->
        rows ≡ₚ filter (fun r => e_agent_id r = agent_id) (episodic_memory (db w))).
Proof.
  intros Hs. unfold EpisodicStore.list_by_agent_recent in Hs.
  apply connect_then in Hs as [(w0 & Hb & Hdb & _)|(Ho & _)]; [|discriminate].
  unfold bind, gets, ret in Hb. injection Hb as <- <-. rewrite Hdb.
  set (mine := filter (fun r => EpisodicStore.owned agent_id r = true) (episodic_memory (db w))).
  assert (Hmine : mine = filter (fun r => e_agent_id r = agent_id) (episodic_memory (db w))).
  { unfold mine. apply list_filter_iff. intros r. apply owned_episodic. }
  eexists. split; [reflexivity|]. split; [|split; [|split]].
  - intros r Hr. apply (fun H => elem_of_sublist _ _ _ H (limit_sublist _ _)) in Hr.
    rewrite (order_by_desc_Permutation e_timestamp _) in Hr.
    unfold mine in Hr. rewrite list_elem_of_filter, owned_episodic in Hr. tauto.
  - eapply sorted_sublist; [|apply limit_sublist|apply order_by_desc_sorted].
    intros x y z Hxy Hyz. lia.
  - apply limit_length.
  - intros Hl. rewrite <- Hmine in *. rewrite limit_all.
    + apply order_by_desc_Permutation.
    + rewrite (Permutation_length (order_by_desc_Permutation e_timestamp mine)). exact Hl.
Qed.

End StoreQueries.

(** ** The stores: writes *)

Section StoreWrites.

Lemma filter_filter_subsumed {A : Type} (P Q : A -> Prop)
    `{forall x, Decision (P x)} `{forall x, Decision (Q x)} (l : list A) :
  (forall x, P x -> Q x) -> filter P (filter Q l) = filter P l.
Proof.
  intros HPQ. induction l as [|x l IH]; [reflexivity|].
  rewrite (filter_cons Q). destruct (decide (Q x)) as [Hq|Hq].
  - rewrite !filter_cons. destruct (decide (P x)); rewrite IH; reflexivity.
  - rewrite filter_cons. rewrite decide_False by (intros Hp; apply Hq, HPQ, Hp). exact IH.
Qed.

Lemma filter_map_fixed {A : Type} (P : A -> Prop) `{forall x, Decision (P x)}
    (f : A -> A) (l : list A) :
  (forall x, P (f x) <-> P x) -> (forall x, P x -> f x = x) ->
  filter P (map f l) = filter P l.
Proof.
  intros Hiff Hfix. induction l as [|x l IH]; [reflexivity|]. simpl map.
  rewrite !filter_cons. destruct (decide (P x)) as [Hp|Hp].
  - rewrite decide_True by (apply Hiff; exact Hp). rewrite (Hfix x Hp), IH. reflexivity.
  - rewrite decide_False by (rewrite Hiff; exact Hp). exact IH.
Qed.

Lemma episodic_hit (agent_id : pystr) (mem_id : Z) (r : episodic_row) :
  (e_id r =? mem_id) && EpisodicStore.owned agent_id r = true
  <-> e_id r = mem_id /\ e_agent_id r = agent_id.
Proof. rewrite andb_true_iff, Z.eqb_eq, owned_episodic. tauto. Qed.

Lemma episodic_miss (agent_id : pystr) (mem_id : Z) (r : episodic_row) :
  (e_id r =? mem_id) && EpisodicStore.owned agent_id r = false
  <-> ~ (e_id r = mem_id /\ e_agent_id r = agent_id).
Proof. rewrite <- episodic_hit. destruct (_ && _); split; congruence. Qed.

Lemma semantic_hit (agent_id : pystr) (mem_id : Z) (r : semantic_row) :
  (s_id r =? mem_id) && SemanticStore.owned agent_id r = true
  <-> s_id r = mem_id /\ s_agent_id r = agent_id.
Proof. rewrite andb_true_iff, Z.eqb_eq, owned_semantic. tauto. Qed.

Lemma semantic_miss (agent_id : pystr) (mem_id : Z) (r : semantic_row) :
  (s_id r =? mem_id) && SemanticStore.owned agent_id r = false
  <-> ~ (s_id r = mem_id /\ s_agent_id r = agent_id).
Proof. rewrite <- semantic_hit. destruct (_ && _); split; congruence. Qed.

Lemma episodic_get_returned (agent_id : pystr) (mem_id : Z) (w w' : World)
    (x : option memory_item) :
  EpisodicStore.get_by_id agent_id mem_id w = (Returned x, w') ->
  x = EpisodicStore.to_dict <$> head (matching agent_id mem_id (db w)).
Proof.
  unfold EpisodicStore.get_by_id. intros Hg.
  apply connect_then in Hg as [(w0 & Hb & Hdb & _)|(Ho & _)]; [|discriminate].
  unfold bind, gets, ret in Hb. injection Hb as <- _. rewrite Hdb. unfold matching.
  do 2 f_equal. apply list_filter_iff. intros r. apply episodic_hit.
Qed.

Lemma positive_length {A : Type} (l : list A) :
  (0 <? Z.of_nat (length l)) = true <-> exists x, x ∈ l.
Proof.
  destruct l as [|x l]; simpl.
  - split; [discriminate|]. intros [x Hx]. inversion Hx.
  - split; [|reflexivity]. intros _. exists x. apply list_elem_of_here.
Qed.

(** X12. An insert into the event table that returns, returns an id greater
    than every id in the table; a lookup of that id by the same agent gives
    back the content and role that were inserted, and a lookup of it by any
    other agent gives [None]. *)
Theorem episodic_insert_then_get (agent_id content role : pystr) (w w1 : World) (i : Z) :
  episodic_ids_bounded (db w) ->
  EpisodicStore.insert agent_id content role w = (Returned i, w1) ->
  (forall r, r ∈ episodic_memory (db w) -> e_id r < i)
  /\ (forall x w2, EpisodicStore.get_by_id agent_id i w1 = (Returned x, w2) ->
        x = Some (EpisodicItem i content role (now w)))
  /\ (forall other x w2, other <> agent_id ->
        EpisodicStore.get_by_id other i w1 = (Returned x, w2) -> x = None).
Proof.
  intros Hb Hi. unfold EpisodicStore.insert in Hi.
  apply connect_then in Hi as [(w0 & Hbody & Hdb & _ & _ & Hnow)|(Ho & _)]; [|discriminate].
  injection Hbody as <- <-. rewrite Hdb, Hnow.
  assert (Hold : forall r, r ∈ episodic_memory (db w) -> e_id r < episodic_seq (db w) + 1).
  { intros r Hr. specialize (Hb r Hr). lia. }
  assert (Hmatch : forall a,
            matching a (episodic_seq (db w) + 1)
              (db (set_db (mkDatabase
                     (episodic_memory (db w) ++
                        [mkEpisodicRow (episodic_seq (db w) + 1) agent_id content role (now w)])
                     (episodic_seq (db w) + 1) (semantic_memory (db w)) (semantic_seq (db w)))
                     w0))
            = if decide (agent_id = a)
              then [mkEpisodicRow (episodic_seq (db w) + 1) agent_id content role (now w)]
              else []).
  { intros a. unfold matching. simpl. rewrite filter_app.
    rewrite (filter_none _ (episodic_memory (db w)))
      by (intros r Hr [Hid _]; specialize (Hold r Hr); lia).
    rewrite filter_cons, filter_nil. simpl.
    destruct (decide (agent_id = a)) as [->|Hne].
    - rewrite decide_True by auto. reflexivity.
    - rewrite decide_False by tauto. reflexivity. }
  split; [exact Hold|]. split.
  - intros x w2 Hg. apply episodic_get_returned in Hg. rewrite Hmatch in Hg.
    rewrite decide_True in Hg by reflexivity. exact Hg.
  - intros other x w2 Hne Hg. apply episodic_get_returned in Hg. rewrite Hmatch in Hg.
    rewrite decide_False in Hg by congruence. exact Hg.
Qed.

(** X13. [delete_by_id] on the event table answers [True] exactly when the
    agent owns a row with that id; after it, a lookup of the id by the agent
    gives [None], and when it answered [False] the database is the one it
    was. *)
Theorem episodic_delete_then_get (agent_id : pystr) (mem_id : Z) (w w1 : World) (b : bool) :
  EpisodicStore.delete_by_id agent_id mem_id w = (Returned b, w1) ->
  (b = true <-> exists r, r ∈ episodic_memory (db w) /\ e_id r = mem_id
                          /\ e_agent_id r = agent_id)
  /\ (forall x w2, EpisodicStore.get_by_id agent_id mem_id w1 = (Returned x, w2) -> x = None)
  /\ (b = false -> db w1 = db w).
Proof.
  intros Hd. unfold EpisodicStore.delete_by_id in Hd.
  apply connect_then in Hd as [(w0 & Hbody & Hdb & _)|(Ho & _)]; [|discriminate].
  injection Hbody as <- <-. rewrite Hdb. split; [|split].
  - rewrite positive_length. split.
    + intros [r Hr]. apply list_elem_of_filter in Hr as [Hh Hr].
      apply episodic_hit in Hh. eauto.
    + intros (r & Hr & Hid & Ha). exists r. apply list_elem_of_filter.
      split; [apply episodic_hit; auto|exact Hr].
  - intros x w2 Hg. apply episodic_get_returned in Hg. subst x.
    unfold matching. simpl.
    rewrite filter_none; [reflexivity|].
    intros r Hr Hm. apply list_elem_of_filter in Hr as [Hmiss _].
    apply episodic_miss in Hmiss. contradiction.
  - intros Hfalse. simpl.
    assert (Hnone : filter (fun r => (e_id r =? mem_id) && EpisodicStore.owned agent_id r = true)
                      (episodic_memory (db w)) = []).
    { destruct (filter _ (episodic_memory (db w))); [reflexivity|discriminate]. }
    assert (Hall : filter (fun r => (e_id r =? mem_id) && EpisodicStore.owned agent_id r = false)
                     (episodic_memory (db w)) = episodic_memory (db w)).
    { clear Hfalse. induction (episodic_memory (db w)) as [|r l IH]; [reflexivity|].
      rewrite filter_cons in Hnone. rewrite filter_cons.
      destruct ((e_id r =? mem_id) && EpisodicStore.owned agent_id r) eqn:Hh.
      - rewrite decide_True in Hnone by reflexivity. discriminate.
      - rewrite decide_False in Hnone by discriminate.
        rewrite decide_True by reflexivity. rewrite (IH Hnone). reflexivity. }
    unfold EpisodicStore.set_rows. rewrite Hall. destruct (db w). reflexivity.
Qed.

(** X14. [update_content] on the event table answers [True] exactly when the
    agent owns a row with that id. It rewrites the content only: ids,
    owners, roles and timestamps of all rows are as before, and a lookup of
    the id by the agent then gives the first such row with the new
    content. *)
Theorem episodic_update_then_get (agent_id : pystr) (mem_id : Z) (new_content : pystr)
    (w w1 : World) (b : bool) :
  EpisodicStore.update_content agent_id mem_id new_content w = (Returned b, w1) ->
  (b = true <-> exists r, r ∈ episodic_memory (db w) /\ e_id r = mem_id
                          /\ e_agent_id r = agent_id)
  /\ map (fun r => (e_id r, e_agent_id r, e_role r, e_timestamp r)) (episodic_memory (db w1))
     = map (fun r => (e_id r, e_agent_id r, e_role r, e_timestamp r)) (episodic_memory (db w))
  /\ (forall x w2, EpisodicStore.get_by_id agent_id mem_id w1 = (Returned x, w2) ->
        x = (fun r => EpisodicItem mem_id new_content (e_role r) (e_timestamp r))
              <$> head (matching agent_id mem_id (db w))).
Proof.
  intros Hu. unfold EpisodicStore.update_content in Hu.
  apply connect_then in Hu as [(w0 & Hbody & Hdb & _)|(Ho & _)]; [|discriminate].
  injection Hbody as <- <-. rewrite Hdb. split; [|split].
  - rewrite positive_length. split.
    + intros [r Hr]. apply list_elem_of_filter in Hr as [Hh Hr].
      apply episodic_hit in Hh. eauto.
    + intros (r & Hr & Hid & Ha). exists r. apply list_elem_of_filter.
      split; [apply episodic_hit; auto|exact Hr].
  - simpl. rewrite map_map. apply map_ext. intros r.
    destruct ((e_id r =? mem_id) && EpisodicStore.owned agent_id r); reflexivity.
  - intros x w2 Hg. apply episodic_get_returned in Hg. subst x.
    unfold matching. simpl.
    induction (episodic_memory (db w)) as [|r l IH]; [reflexivity|].
    simpl map. rewrite !filter_cons.
    destruct ((e_id r =? mem_id) && EpisodicStore.owned agent_id r) eqn:Hh.
    + pose proof (proj1 (episodic_hit _ _ _) Hh) as [Hid Ha].
      rewrite decide_True by (simpl; auto). rewrite decide_True by auto.
      simpl. unfold EpisodicStore.to_dict. simpl. rewrite Hid. reflexivity.
    + pose proof (proj1 (episodic_miss _ _ _) Hh) as Hn.
      rewrite !decide_False by exact Hn. exact IH.
Qed.

End StoreWrites.

(** ** The stores: tenants, and the queries of the summary table *)

Section StoreIsolation.

Lemma rows_of_agent_same (b : pystr) (w w' : World) :
  db w' = db w -> rows_of_agent b (db w') = rows_of_agent b (db w).
Proof. intros ->. reflexivity. Qed.

Lemma filter_drop_other_episodic (a b : pystr) (P : episodic_row -> bool)
    (rows : list episodic_row) :
  a <> b ->
  filter (fun r => e_agent_id r = b)
    (filter (fun r => P r && EpisodicStore.owned a r = false) rows)
  = filter (fun r => e_agent_id r = b) rows.
Proof.
  intros Hne. apply filter_filter_subsumed. intros r Hr.
  apply andb_false_iff. right. unfold EpisodicStore.owned. apply str_eqb_ne. congruence.
Qed.

Lemma filter_drop_other_semantic (a b : pystr) (P : semantic_row -> bool)
    (rows : list semantic_row) :
  a <> b ->
  filter (fun r => s_agent_id r = b)
    (filter (fun r => P r && SemanticStore.owned a r = false) rows)
  = filter (fun r => s_agent_id r = b) rows.
Proof.
  intros Hne. apply filter_filter_subsumed. intros r Hr.
  apply andb_false_iff. right. unfold SemanticStore.owned. apply str_eqb_ne. congruence.
Qed.

Ltac run_store w Hc Hdb :=
  match goal with |- context [snd (?m w)] => destruct (m w) as [?o ?w'] eqn:Hc end;
  apply connect_then in Hc as [(?w0 & Hc & Hdb & _)|(_ & Hdb & _)];
  [injection Hc as _ <-; simpl; rewrite Hdb|apply rows_of_agent_same; assumption].

(** X16. A write of one agent leaves the rows of every other agent as they
    are, in both tables and in their order: insert, update_content,
    delete_by_id and clear on the event table, and insert, update_content
    and delete_by_id on the summary table, returning or raising. *)
Theorem store_writes_keep_other_agents (a b : pystr) (w : World) :
  a <> b ->
  (forall c r, rows_of_agent b (db (snd (EpisodicStore.insert a c r w)))
               = rows_of_agent b (db w))
  /\ (forall i c, rows_of_agent b (db (snd (EpisodicStore.update_content a i c w)))
                  = rows_of_agent b (db w))
  /\ (forall i, rows_of_agent b (db (snd (EpisodicStore.delete_by_id a i w)))
                = rows_of_agent b (db w))
  /\ rows_of_agent b (db (snd (EpisodicStore.clear a w))) = rows_of_agent b (db w)
  /\ (forall c m, rows_of_agent b (db (snd (SemanticStore.insert a c m w)))
                  = rows_of_agent b (db w))
  /\ (forall i c e, rows_of_agent b (db (snd (SemanticStore.update_content a i c e w)))
                    = rows_of_agent b (db w))
  /\ (forall i, rows_of_agent b (db (snd (SemanticStore.delete_by_id a i w)))
                = rows_of_agent b (db w)).
Proof.
  intros Hne. split; [|split; [|split; [|split; [|split; [|split]]]]].
  - intros c r. unfold EpisodicStore.insert. run_store w Hc Hdb.
    unfold rows_of_agent. simpl. f_equal.
    rewrite filter_app, filter_cons, decide_False by (simpl; congruence).
    rewrite filter_nil. apply app_nil_r.
  - intros i c. unfold EpisodicStore.update_content. run_store w Hc Hdb.
    unfold rows_of_agent. simpl. f_equal.
    apply (filter_map_fixed (fun r => e_agent_id r = b)).
    + intros r. destruct ((e_id r =? i) && EpisodicStore.owned a r); reflexivity.
    + intros r Hr. replace (EpisodicStore.owned a r) with false
        by (symmetry; apply str_eqb_ne; congruence).
      rewrite andb_false_r. reflexivity.
  - intros i. unfold EpisodicStore.delete_by_id. run_store w Hc Hdb.
    unfold rows_of_agent. simpl. f_equal.
    apply (filter_drop_other_episodic a b (fun r => e_id r =? i)). exact Hne.
  - unfold EpisodicStore.clear. run_store w Hc Hdb.
    unfold rows_of_agent. simpl. f_equal.
    apply (filter_drop_other_episodic a b (fun _ => true)). exact Hne.
  - intros c m. unfold SemanticStore.insert. run_store w Hc Hdb.
    unfold rows_of_agent. simpl. f_equal.
    rewrite filter_app, filter_cons, decide_False by (simpl; congruence).
    rewrite filter_nil. apply app_nil_r.
  - intros i c e. unfold SemanticStore.update_content. run_store w Hc Hdb.
    unfold rows_of_agent. simpl. f_equal.
    apply (filter_map_fixed (fun r => s_agent_id r = b)).
    + intros r. destruct ((s_id r =? i) && SemanticStore.owned a r); reflexivity.
    + intros r Hr. replace (SemanticStore.owned a r) with false
        by (symmetry; apply str_eqb_ne; congruence).
      rewrite andb_false_r. reflexivity.
  - intros i. unfold SemanticStore.delete_by_id. run_store w Hc Hdb.
    unfold rows_of_agent. simpl. f_equal.
    apply (filter_drop_other_semantic a b (fun r => s_id r =? i)). exact Hne.
Qed.

(** X17. [get_by_ids] answers with rows the agent owns whose id was asked
    for, in the order of the table: the order of the ids asked for, and
    their repetition, make no difference. *)
Theorem get_by_ids_ignores_order (agent_id : pystr) (ids ids' : list Z) (w : World) :
  (forall i, i ∈ ids <-> i ∈ ids') ->
  SemanticStore.get_by_ids agent_id ids w = SemanticStore.get_by_ids agent_id ids' w
  /\ (forall items w', SemanticStore.get_by_ids agent_id ids w = (Returned items, w') ->
        items = map SemanticStore.to_dict
                  (filter (fun r => s_agent_id r = agent_id /\ s_id r ∈ ids)
                     (semantic_memory (db w)))).
Proof.
  intros Hsame. split.
  - destruct ids as [|i ids], ids' as [|i' ids'].
    + reflexivity.
    + exfalso. assert (Hi : i' ∈ @nil Z) by (apply Hsame; apply list_elem_of_here).
      inversion Hi.
    + exfalso. assert (Hi : i ∈ @nil Z) by (apply Hsame; apply list_elem_of_here).
      inversion Hi.
    + unfold SemanticStore.get_by_ids, bind, gets, ret.
      destruct (Sql.connect w) as [[[]|x] w0]; [|reflexivity].
      do 3 f_equal. apply list_filter_iff. intros r.
      rewrite !andb_true_iff, !bool_decide_eq_true, Hsame. tauto.
  - intros items w' Hg. destruct ids as [|i ids].
    + injection Hg as <- _. rewrite filter_none; [reflexivity|].
      intros r _ [_ Hin]. inversion Hin.
    + unfold SemanticStore.get_by_ids in Hg.
      apply connect_then in Hg as [(w0 & Hb & Hdb & _)|(Ho & _)]; [|discriminate].
      unfold bind, gets, ret in Hb. injection Hb as <- _. rewrite Hdb.
      f_equal. apply list_filter_iff. intros r.
      rewrite andb_true_iff, bool_decide_eq_true, owned_semantic. tauto.
Qed.


End StoreIsolation.

(** ** The coordinator: reads, updates, deletes *)

Section DeleteParts.
Context `{External}.

(** The two steps of a [delete_memory] that returned [True]. *)
Lemma delete_memory_returned_true (agent_id : pystr) (mem_id : Z)
    (mem_type : pystr) (w w' : World) :
  MemoryManager.delete_memory agent_id mem_id mem_type w = (Returned true, w') ->
  exists w1,
    (mem_type = py "episodic" \/ mem_type = py "semantic")
    /\ ((mem_type = py "episodic" ->
         forall r, r ∈ episodic_memory (db w1) ->
                   ~ (e_id r = mem_id /\ e_agent_id r = agent_id))
        /\ (mem_type = py "semantic" ->
            forall r, r ∈ semantic_memory (db w1) ->
                      ~ (s_id r = mem_id /\ s_agent_id r = agent_id)))
    /\ vector_index w1 = vector_index w
    /\ VectorIndex.remove agent_id mem_type mem_id w1 = (Returned tt, w').
Proof.
  unfold MemoryManager.delete_memory.
  destruct (str_eqb mem_type (py "episodic")) eqn:He.
  { apply str_eqb_eq in He. subst mem_type. unfold bind at 1.
    destruct (EpisodicStore.delete_by_id agent_id mem_id w) as [[[]|x] w1] eqn:Hs;
      [|unfold bind, ret; simpl; discriminate|discriminate].
    pose proof (episodic_delete_frame _ _ _ _ _ Hs) as Hvi.
    unfold bind.
    destruct (VectorIndex.remove agent_id (py "episodic") mem_id w1) as [[[]|x] w2] eqn:Hr;
      [|discriminate].
    intros [= <-]. exists w1. split; [auto|]. split; [|auto]. split.
    - intros _ r Hin Hm. unfold EpisodicStore.delete_by_id in Hs.
      apply connect_then in Hs as [(w0 & Hb & Hdb & _)|(Ho & _)]; [|discriminate].
      injection Hb as _ <-. simpl in Hin.
      apply list_elem_of_filter in Hin as [Hmiss _]. apply episodic_miss in Hmiss. auto.
    - discriminate. }
  destruct (str_eqb mem_type (py "semantic")) eqn:Hm; [|discriminate].
  apply str_eqb_eq in Hm. subst mem_type. unfold bind at 1.
  destruct (SemanticStore.delete_by_id agent_id mem_id w) as [[[]|x] w1] eqn:Hs;
    [|unfold bind, ret; simpl; discriminate|discriminate].
  pose proof (semantic_delete_frame _ _ _ _ _ Hs) as Hvi.
  unfold bind.
  destruct (VectorIndex.remove agent_id (py "semantic") mem_id w1) as [[[]|x] w2] eqn:Hr;
    [|discriminate].
  intros [= <-]. exists w1. split; [auto|]. split; [|auto]. split.
  - discriminate.
  - intros _ r Hin Hmt. unfold SemanticStore.delete_by_id in Hs.
    apply connect_then in Hs as [(w0 & Hb & Hdb & _)|(Ho & _)]; [|discriminate].
    injection Hb as _ <-. simpl in Hin.
    apply list_elem_of_filter in Hin as [Hmiss _]. apply semantic_miss in Hmiss. auto.
Qed.

End DeleteParts.

Section CoordinatorMore.
Context `{External}.
Variable policy : BasePolicy.

Lemma query_frame {A B : Type} (sel : World -> A) (g : A -> B) (w w' : World)
    (o : outcome B) :
  (Sql.connect ;;; let! rows := gets sel in ret (g rows)) w = (o, w') ->
  db w' = db w /\ vector_index w' = vector_index w /\ heap w' = heap w
  /\ (forall x, o = Returned x -> exists w0, db w0 = db w /\ x = g (sel w0)).
Proof.
  intros Hq. apply connect_then in Hq as [(w0 & Hb & Hdb & Hvi & Hh & _)|(Ho & Hdb & Hvi & Hh)].
  - unfold bind, gets, ret in Hb. injection Hb as <- <-.
    repeat split; auto. intros x [= <-]. eauto.
  - repeat split; auto. intros x Hx. congruence.
Qed.

Lemma get_by_ids_frame (agent_id : pystr) (ids : list Z) (w w' : World)
    (o : outcome (list memory_item)) :
  SemanticStore.get_by_ids agent_id ids w = (o, w') ->
  db w' = db w /\ vector_index w' = vector_index w
  /\ (forall items, o = Returned items -> Forall (item_of_agent (db w) agent_id) items).
Proof.
  destruct ids as [|i ids]; simpl.
  - intros [= <- <-]. repeat split; auto. intros items [= <-]. constructor.
  - intros Hq. apply query_frame in Hq as (Hdb & Hvi & _ & Hres).
    repeat split; auto. intros items Ho. destruct (Hres _ Ho) as (w0 & Hdb0 & ->).
    rewrite Hdb0. apply Forall_forall. intros item Hin.
    apply list_elem_of_In, in_map_iff in Hin as (r & <- & Hr). apply list_elem_of_In in Hr.
    apply list_elem_of_filter in Hr as [Hp Hr]. apply andb_true_iff in Hp as [Ho' _].
    right. exists r. rewrite owned_semantic in Ho'. auto.
Qed.

Lemma episodic_items_of_agent (agent_id : pystr) (d : Database)
    (P : episodic_row -> Prop) `{forall r, Decision (P r)} (rows : list episodic_row) :
  (forall r, P r -> EpisodicStore.owned agent_id r = true) ->
  rows ⊆+ filter P (episodic_memory d) ->
  Forall (item_of_agent d agent_id) (map EpisodicStore.to_dict rows).
Proof.
  intros HP Hsub. apply Forall_forall. intros item Hin.
  apply list_elem_of_In, in_map_iff in Hin as (r & <- & Hr). apply list_elem_of_In in Hr.
  eapply elem_of_submseteq in Hr; [|exact Hsub].
  apply list_elem_of_filter in Hr as [Hp Hr]. left. exists r.
  apply HP, owned_episodic in Hp. auto.
Qed.

Lemma semantic_items_of_agent (agent_id : pystr) (d : Database)
    (P : semantic_row -> Prop) `{forall r, Decision (P r)} (rows : list semantic_row) :
  (forall r, P r -> SemanticStore.owned agent_id r = true) ->
  rows ⊆+ filter P (semantic_memory d) ->
  Forall (item_of_agent d agent_id) (map SemanticStore.to_dict rows).
Proof.
  intros HP Hsub. apply Forall_forall. intros item Hin.
  apply list_elem_of_In, in_map_iff in Hin as (r & <- & Hr). apply list_elem_of_In in Hr.
  eapply elem_of_submseteq in Hr; [|exact Hsub].
  apply list_elem_of_filter in Hr as [Hp Hr]. right. exists r.
  apply HP, owned_semantic in Hp. auto.
Qed.

Lemma limit_order_submseteq {A : Type} (key : A -> Z) (n : Z) (l : list A) :
  Sql.limit n (Sql.order_by_desc key l) ⊆+ l.
Proof.
  etransitivity; [apply sublist_submseteq, limit_sublist|].
  apply Permutation_submseteq, order_by_desc_Permutation.
Qed.

Ltac raised_case :=
  simpl in *; split; [congruence|split; [congruence|intros ? ?; discriminate]].

(** X19. Reading is scoped and read-only. Whatever [list_recent_memories]
    and [search_memories] return for an agent is the dict of a row that
    agent owns in one of the two tables, also when the vector search hands
    back an id that belongs to somebody else; and neither call, returning
    or raising, changes a table or the vector index. ([EpisodicStore.search]
    and [list_by_agent] are the queries of [search_by_agent] and
    [list_by_agent_recent].) *)
Theorem reads_are_scoped_and_read_only (agent_id : pystr) (w : World) :
  (forall limit,
     db (snd (MemoryManager.list_recent_memories agent_id limit w)) = db w
     /\ vector_index (snd (MemoryManager.list_recent_memories agent_id limit w))
        = vector_index w
     /\ forall items,
          fst (MemoryManager.list_recent_memories agent_id limit w) = Returned items ->
          Forall (item_of_agent (db w) agent_id) items
          /\ (0 <= limit -> Z.of_nat (length items) <= 2 * limit))
  /\ (forall query,
        db (snd (MemoryManager.search_memories agent_id query w)) = db w
        /\ vector_index (snd (MemoryManager.search_memories agent_id query w))
           = vector_index w
        /\ forall items,
             fst (MemoryManager.search_memories agent_id query w) = Returned items ->
             Forall (item_of_agent (db w) agent_id) items).
Proof.
  split.
  - intros limit.
    destruct (MemoryManager.list_recent_memories agent_id limit w) as [o w'] eqn:Hrun.
    simpl. revert Hrun. unfold MemoryManager.list_recent_memories.
    unfold EpisodicStore.list_by_agent, EpisodicStore.list_by_agent_recent.
    unfold bind at 1.
    match goal with |- context [match ?m w with _ => _ end] =>
      destruct (m w) as [o1 w1] eqn:H1 end.
    apply query_frame in H1 as (Hdb1 & Hvi1 & _ & Hres1).
    destruct o1 as [ep|x]; [|intros [= <- <-]; raised_case].
    destruct (Hres1 _ eq_refl) as (w0 & Hdb0 & ->).
    unfold SemanticStore.list_by_agent. unfold bind at 1.
    match goal with |- context [match ?m w1 with _ => _ end] =>
      destruct (m w1) as [o2 w2] eqn:H2 end.
    apply query_frame in H2 as (Hdb2 & Hvi2 & _ & Hres2).
    destruct o2 as [se|x]; [|intros [= <- <-]; raised_case].
    destruct (Hres2 _ eq_refl) as (w3 & Hdb3 & ->).
    intros [= <- <-].
    split; [congruence|]. split; [congruence|].
    intros items [= <-]. split.
    + apply Forall_app. split.
      * rewrite <- Hdb0. eapply episodic_items_of_agent; [|apply limit_order_submseteq]. auto.
      * rewrite <- Hdb1, <- Hdb3.
        eapply semantic_items_of_agent; [|apply limit_order_submseteq]. auto.
    + intros Hl. rewrite length_app, !length_map.
      pose proof (limit_length limit
                    (Sql.order_by_desc e_timestamp
                       (filter (fun r => EpisodicStore.owned agent_id r = true)
                          (episodic_memory (db w0)))) Hl).
      pose proof (limit_length limit
                    (Sql.order_by_desc s_id
                       (filter (fun r => SemanticStore.owned agent_id r = true)
                          (semantic_memory (db w3)))) Hl).
      lia.
  - intros query.
    destruct (MemoryManager.search_memories agent_id query w) as [o w'] eqn:Hrun.
    simpl. revert Hrun. unfold MemoryManager.search_memories.
    unfold EpisodicStore.search, EpisodicStore.search_by_agent.
    unfold bind at 1.
    match goal with |- context [match ?m w with _ => _ end] =>
      destruct (m w) as [o1 w1] eqn:H1 end.
    apply query_frame in H1 as (Hdb1 & Hvi1 & _ & Hres1).
    destruct o1 as [ep|x]; [|intros [= <- <-]; raised_case].
    destruct (Hres1 _ eq_refl) as (w0 & Hdb0 & ->).
    unfold bind at 1.
    destruct (DefaultProcessor.embed query w1) as [[emb|x] w2] eqn:H2;
      apply embed_frame in H2 as [Hvi2 Hdb2];
      [|intros [= <- <-]; raised_case].
    unfold bind at 1.
    destruct (search_frame agent_id emb 5 w2) as (Hvi3 & Hdb3 & _).
    destruct (VectorIndex.search agent_id emb 5 w2) as [[ids|x] w3] eqn:H3; simpl in Hvi3, Hdb3;
      [|intros [= <- <-]; raised_case].
    unfold bind.
    destruct (SemanticStore.get_by_ids agent_id ids w3) as [o4 w4] eqn:H4.
    apply get_by_ids_frame in H4 as (Hdb4 & Hvi4 & Hres4).
    destruct o4 as [se|x]; [|intros [= <- <-]; raised_case].
    intros [= <- <-].
    split; [congruence|]. split; [congruence|].
    intros items [= <-]. apply Forall_app. split.
    + rewrite <- Hdb0. eapply episodic_items_of_agent.
      * intros r Hr. apply andb_true_iff in Hr as [Ho _]. exact Ho.
      * apply Permutation_submseteq, order_by_desc_Permutation.
    + specialize (Hres4 _ eq_refl). rewrite Hdb3, Hdb2, Hdb1 in Hres4. exact Hres4.
Qed.

(** X20. [update_memory_content] writes nothing when the policy forbids the
    edit, when the kind is neither "episodic" nor "semantic", or when the
    kind is "semantic" and the embedding of the new content fails: the
    embedding is asked for before the store is touched, so its failure is
    raised with the row as it was. *)
Theorem update_memory_content_writes_nothing (agent_id : pystr) (mem_id : Z)
    (new_content mem_type : pystr) (w : World) :
  (allow_user_to_edit_memory policy agent_id mem_type = false ->
     MemoryManager.update_memory_content policy agent_id mem_id new_content mem_type w
     = (Returned false, w))
  /\ (mem_type <> py "episodic" -> mem_type <> py "semantic" ->
     MemoryManager.update_memory_content policy agent_id mem_id new_content mem_type w
     = (Returned false, w))
  /\ (allow_user_to_edit_memory policy agent_id (py "semantic") = true ->
     embeddings_create new_content = None ->
     MemoryManager.update_memory_content policy agent_id mem_id new_content (py "semantic") w
     = (Raised EmbeddingFailure, w)).
Proof.
  unfold MemoryManager.update_memory_content. split; [|split].
  - intros ->. reflexivity.
  - intros He Hs. destruct (negb _); [reflexivity|].
    rewrite (str_eqb_ne _ _ He), (str_eqb_ne _ _ Hs). reflexivity.
  - intros -> Hemb. simpl negb. cbv iota.
    rewrite (str_eqb_ne (py "semantic") (py "episodic")) by discriminate.
    rewrite str_eqb_refl. unfold bind, DefaultProcessor.embed. rewrite Hemb. reflexivity.
Qed.

(** X21. When [delete_memory] returns [True], from an index state the
    methods can leave, the agent owns no row with that id in the table of
    that kind any more, the key of the entry is registered under no handle,
    and no live handle names it. *)
Theorem delete_memory_removes_row_and_key (agent_id : pystr) (mem_id : Z) (mem_type : pystr)
    (w w' : World) :
  reachable (vector_index w) ->
  MemoryManager.delete_memory agent_id mem_id mem_type w = (Returned true, w') ->
  (mem_type = py "episodic" \/ mem_type = py "semantic")
  /\ (mem_type = py "episodic" ->
      forall r, r ∈ episodic_memory (db w') -> ~ (e_id r = mem_id /\ e_agent_id r = agent_id))
  /\ (mem_type = py "semantic" ->
      forall r, r ∈ semantic_memory (db w') -> ~ (s_id r = mem_id /\ s_agent_id r = agent_id))
  /\ Dict.get (VectorIndex._make_key agent_id mem_type mem_id) (key_to_id (vector_index w'))
     = None
  /\ (forall h, id_to_key (vector_index w') !! h
                <> Some (VectorIndex._make_key agent_id mem_type mem_id)).
Proof.
  intros Hr Hd. pose proof (reachable_consistent _ Hr) as Hc.
  destruct (delete_memory_returned_true agent_id mem_id mem_type w w' Hd)
    as (w1 & Hkind & Hstore & Hvi & Hrem).
  unfold VectorIndex.remove in Hrem.
  rewrite <- Hvi in Hc.
  destruct (remove_by_key_spec _ _ _ _ Hrem Hc) as (Hc' & Hgone & _ & Hdb & _).
  split; [exact Hkind|]. rewrite Hdb.
  split; [apply Hstore|]. split; [apply Hstore|]. split; [exact Hgone|].
  intros h Hl. apply Hc' in Hl. congruence.
Qed.

End CoordinatorMore.

(** ** The default policy and the core memory blocks *)

Section PolicyMore.
Context `{External}.

(** X22. In the default policy the length test comes first, so three of the
    four stop-list entries can never match: as long as lower-casing does
    not shorten a text, an event is kept exactly when its trimmed content
    has at least 5 code points and does not lower-case to "hello". *)
Theorem short_stop_words_never_match (agent_id : pystr) (ev : event) :
  (forall s, (length s <= length (str_lower s))%nat) ->
  DefaultPolicy.should_store_as_episodic agent_id ev
  = bool_decide (5 <= Z.of_nat (length (strip (content ev)))
                 /\ str_lower (strip (content ev)) <> py "hello").
Proof.
  intros Hlow. unfold DefaultPolicy.should_store_as_episodic.
  set (c := strip (content ev)). specialize (Hlow c).
  destruct (Z.ltb_spec (Z.of_nat (length c)) 5) as [Hlt|Hge].
  - symmetry. apply bool_decide_eq_false. lia.
  - destruct (bool_decide (str_lower c ∈ DefaultPolicy.stop_list)) eqn:Hin.
    + apply bool_decide_eq_true in Hin. symmetry. apply bool_decide_eq_false.
      intros [_ Hne]. apply Hne. unfold DefaultPolicy.stop_list in Hin.
      repeat (apply elem_of_cons in Hin as [Hin|Hin];
              [try (rewrite Hin in Hlow; simpl in Hlow; lia)|]).
      * exact Hin.
      * apply elem_of_nil in Hin. destruct Hin.
    + apply bool_decide_eq_false in Hin. symmetry. apply bool_decide_eq_true.
      split; [lia|]. intros Heq. apply Hin. rewrite Heq. unfold DefaultPolicy.stop_list.
      do 3 apply list_elem_of_further. apply list_elem_of_here.
Qed.

End PolicyMore.

Section CoreBlocks.

Import CoreMemory.

Lemma block_cases (block_name : pystr) :
  block_name = py "persona" \/ block_name = py "human"
  \/ (str_eqb block_name (py "persona") = false /\ str_eqb block_name (py "human") = false).
Proof.
  destruct (str_eqb block_name (py "persona")) eqn:Hp.
  - left. apply str_eqb_eq. exact Hp.
  - destruct (str_eqb block_name (py "human")) eqn:Hh.
    + right. left. apply str_eqb_eq. exact Hh.
    + right. right. auto.
Qed.

(** X23. Edits of one core-memory block compose: two appends are one
    append of the two texts joined by a newline, an append after a replace
    is one replace, a replace makes whatever was done to the block before
    it irrelevant; this holds for every block name, the unknown ones raising
    the same [ValueError] before and after. A call that returns was given
    one of the two block names and leaves the other block as it was; any
    other name raises [ValueError] with the name in its message. *)
Theorem core_memory_edits_compose (block_name a b : pystr) (m : t) :
  and_then (append_to_block block_name a m) (append_to_block block_name b)
  = append_to_block block_name (a ++ [10%N] ++ b) m
  /\ and_then (update_block block_name a m) (append_to_block block_name b)
     = update_block block_name (a ++ [10%N] ++ b) m
  /\ and_then (append_to_block block_name a m) (update_block block_name b)
     = update_block block_name b m
  /\ and_then (update_block block_name a m) (update_block block_name b)
     = update_block block_name b m
  /\ (forall m', update_block block_name a m = Done m'
                 \/ append_to_block block_name a m = Done m' ->
        (block_name = py "persona" /\ human m' = human m)
        \/ (block_name = py "human" /\ persona m' = persona m))
  /\ (block_name <> py "persona" -> block_name <> py "human" ->
      update_block block_name a m = ValueError (py "Unknown block name: " ++ block_name)
      /\ append_to_block block_name a m
         = ValueError (py "Unknown block name: " ++ block_name)).
Proof.
  unfold update_block, append_to_block.
  destruct (block_cases block_name) as [->|[->|[Hp Hh]]].
  - rewrite !str_eqb_refl. simpl. rewrite <- !app_assoc. simpl.
    split; [|split; [|split; [|split; [|split]]]]; try reflexivity.
    + intros m' [[= <-]|[= <-]]; left; auto.
    + intros Hne. destruct Hne. reflexivity.
  - rewrite (str_eqb_ne (py "human") (py "persona")) by discriminate.
    rewrite !str_eqb_refl. simpl. rewrite <- !app_assoc. simpl.
    split; [|split; [|split; [|split; [|split]]]]; try reflexivity.
    + intros m' [[= <-]|[= <-]]; right; auto.
    + intros _ Hne. destruct Hne. reflexivity.
  - rewrite Hp, Hh. simpl.
    split; [|split; [|split; [|split; [|split]]]]; try reflexivity.
    + intros m' [Hd|Hd]; discriminate.
    + intros _ _. split; reflexivity.
Qed.

(** X24. [to_prompt_string] does not escape the texts of the blocks, so the
    line that opens the [Human] section can be forged: a persona that ends
    with that line and some text gives the same prompt as the persona
    without it and a human block that starts with that text. *)
Theorem prompt_sections_can_be_forged (p x h : pystr) :
  to_prompt_string (mk (p ++ [10%N; 10%N] ++ py "[Human]" ++ [10%N] ++ x) h)
  = to_prompt_string (mk p (x ++ [10%N; 10%N] ++ py "[Human]" ++ [10%N] ++ h)).
Proof.
  unfold to_prompt_string. simpl persona. simpl human.
  rewrite <- !app_assoc. reflexivity.
Qed.

End CoreBlocks.

(** ** The further properties, run *)

Section ChecksForRuns.
Context `{External}.

Lemma get_Some_elem (k : pystr) (v : Z) (d : list (pystr * Z)) :
  Dict.get k d = Some v -> (k, v) ∈ d.
Proof.
  induction d as [|[k' v'] d IH]; simpl; [discriminate|].
  destruct (str_eqb k k') eqn:E.
  - apply str_eqb_eq in E. subst k'. intros [= ->]. apply list_elem_of_here.
  - intros Hg. apply list_elem_of_further. apply IH. exact Hg.
Qed.

Lemma NoDup_snd_inj (d : list (pystr * Z)) (k k' : pystr) (h : Z) :
  NoDup (map snd d) -> (k, h) ∈ d -> (k', h) ∈ d -> k = k'.
Proof.
  induction d as [|[k0 h0] d IH]; simpl; intros Hnd Hk Hk'.
  - apply elem_of_nil in Hk. destruct Hk.
  - apply NoDup_cons in Hnd as [Hnot Hnd].
    apply elem_of_cons in Hk as [Hk|Hk]; apply elem_of_cons in Hk' as [Hk'|Hk'].
    + congruence.
    + injection Hk as -> ->. exfalso. apply Hnot.
      apply list_elem_of_fmap. exists (k', h0). auto.
    + injection Hk' as -> ->. exfalso. apply Hnot.
      apply list_elem_of_fmap. exists (k, h0). auto.
    + apply IH; auto.
Qed.

Lemma unshared_handles_check (vi : IndexState) :
  NoDup (map snd (key_to_id vi)) -> unshared_handles vi.
Proof.
  intros Hnd k k' h Hk Hk'.
  eapply NoDup_snd_inj; eauto using get_Some_elem.
Qed.

End ChecksForRuns.

Section MoreRuns.
Import Scenario MoreScenarios.
#[local] Existing Instance kernel.

Lemma kernel_digits_known : ascii_digits_known.
Proof.
  intros d Hd.
  assert (Hc : d = 0 \/ d = 1 \/ d = 2 \/ d = 3 \/ d = 4 \/ d = 5 \/ d = 6 \/ d = 7
               \/ d = 8 \/ d = 9) by lia.
  repeat (destruct Hc as [->|Hc]; [reflexivity|]). subst d. reflexivity.
Qed.

Lemma kernel_lower_length (s : pystr) : (length s <= length (str_lower s))%nat.
Proof. simpl. unfold Kernel.ascii_lower. rewrite length_map. lia. Qed.

Lemma summary_indexed_reachable : reachable (vector_index summary_indexed).
Proof. unfold summary_indexed, exec. apply reachable_add. apply (reachable_init 2). Qed.

Lemma two_tenants_episodic_ids : episodic_ids_bounded (db two_tenants).
Proof.
  assert (Hf : Forall (fun r => e_id r <= episodic_seq (db two_tenants))
                 (episodic_memory (db two_tenants)))
    by (apply (bool_decide_unpack _); vm_compute; exact I).
  exact (proj1 (Forall_forall _ _) Hf).
Qed.

Lemma parse_key_make_key_witness :
  VectorIndex._make_key t1 semantic 42 = py "t1:semantic:42"
  /\ VectorIndex._parse_key (py "t1:semantic:42") = Returned (t1, semantic, 42).
Proof.
  split; [vm_compute; reflexivity|].
  apply (parse_key_make_key t1 semantic 42 kernel_digits_known).
  - apply (bool_decide_unpack _). vm_compute. exact I.
  - apply (bool_decide_unpack _). vm_compute. exact I.
Defined.

Lemma one_live_handle_per_key_witness :
  id_to_key (vector_index two_tenants) !! 1 = Some (py "b:semantic:2")
  /\ Dict.get (py "b:semantic:2") (key_to_id (vector_index two_tenants)) = Some 1.
Proof.
  split; [vm_compute; reflexivity|].
  apply (one_live_handle_per_key (vector_index two_tenants) 1 1 (py "b:semantic:2")
           two_tenants_reachable); vm_compute; reflexivity.
Defined.

Lemma add_registers_witness :
  exists h v,
    heap w0 !! buffer (arr 3) = Some v
    /\ length v = dim (vector_index w0)
    /\ handle_of (exec (VectorIndex.add t1 semantic 1 (arr 3)) w0) t1 semantic 1 = Some h
    /\ id_to_key (vector_index (exec (VectorIndex.add t1 semantic 1 (arr 3)) w0)) !! h
       = Some (py "t1:semantic:1")
    /\ index (vector_index (exec (VectorIndex.add t1 semantic 1 (arr 3)) w0))
       = [(h, normalize_L2 v)].
Proof.
  destruct (add_registers t1 semantic 1 (arr 3) w0
              (exec (VectorIndex.add t1 semantic 1 (arr 3)) w0))
    as (h & v & Hv & Hlen & Hk & Hi & Hidx & _); [vm_compute; reflexivity|].
  exists h, v. split; [exact Hv|]. split; [exact Hlen|]. split; [exact Hk|].
  split; [exact Hi|exact Hidx].
Defined.

Lemma add_wrong_dimension_witness :
  exists w',
    VectorIndex.add t1 semantic 1 (arr 3) w_dim3 = (Raised AssertionError, w')
    /\ handle_of w' t1 semantic 1 = Some 0
    /\ id_to_key (vector_index w') !! 0 = Some (py "t1:semantic:1")
    /\ index (vector_index w') = []
    /\ heap w' !! buffer (arr 3) = Some [3#5; 4#5]%Q.
Proof.
  destruct (add_wrong_dimension t1 semantic 1 (arr 3) w_dim3 [3#1; 4#1]%Q)
    as (w' & Hrun & Hk & Hi & Hidx & Hheap).
  - reflexivity.
  - discriminate.
  - vm_compute. discriminate.
  - reflexivity.
  - exists w'. split; [exact Hrun|]. split; [exact Hk|]. split; [exact Hi|].
    split; [exact Hidx|exact Hheap].
Defined.

Lemma add_fresh_handle_when_dense_witness :
  handle_of (exec (VectorIndex.add t1 semantic 1 (arr 3)) w0) t1 semantic 1 = Some 0
  /\ dense (vector_index (exec (VectorIndex.add t1 semantic 1 (arr 3)) w0)).
Proof.
  destruct (add_fresh_handle_when_dense t1 semantic 1 (arr 3) w0) as (_ & Hk & _ & Hd).
  - apply (init_dense 2).
  - reflexivity.
  - split; [exact Hk|exact Hd].
Defined.

Lemma clear_agent_keeps_other_keys_witness :
  id_to_key (vector_index uncrowded) !! 1 = Some (py "a:semantic:101")
  /\ id_to_key (vector_index (exec (VectorIndex.clear_agent tenant_b) uncrowded)) !! 1
     = Some (py "a:semantic:101")
  /\ handle_of (exec (VectorIndex.clear_agent tenant_b) uncrowded) tenant_a semantic 101
     = Some 1.
Proof.
  split; [vm_compute; reflexivity|].
  apply (clear_agent_keeps_other_keys tenant_b (py "a:semantic:101") 1 uncrowded
           uncrowded_reachable).
  - apply unshared_handles_check. apply (bool_decide_unpack _). vm_compute. exact I.
  - vm_compute. reflexivity.
  - vm_compute. reflexivity.
Defined.


Lemma list_by_agent_recent_limit_witness :
  exists rows,
    [EpisodicItem 1 (content paris) (role paris) 1000] = map EpisodicStore.to_dict rows
    /\ Z.of_nat (length rows) <= 5
    /\ rows ≡ₚ filter (fun r => e_agent_id r = t1) (episodic_memory (db two_tenants)).
Proof.
  destruct (list_by_agent_recent_limit t1 5 two_tenants
              (snd (EpisodicStore.list_by_agent_recent t1 5 two_tenants))
              [EpisodicItem 1 (content paris) (role paris) 1000])
    as (rows & Hitems & _ & _ & Hlen & Hall); [vm_compute; reflexivity|].
  exists rows. split; [exact Hitems|]. split; [apply Hlen; lia|].
  apply Hall. right. vm_compute. discriminate.
Defined.

Lemma episodic_insert_then_get_witness :
  fst (EpisodicStore.insert t1 (py "second event") (py "user") two_tenants) = Returned 2
  /\ (forall r, r ∈ episodic_memory (db two_tenants) -> e_id r < 2)
  /\ fst (EpisodicStore.get_by_id t1 2
            (exec (EpisodicStore.insert t1 (py "second event") (py "user")) two_tenants))
     = Returned (Some (EpisodicItem 2 (py "second event") (py "user") 1000)).
Proof.
  destruct (episodic_insert_then_get t1 (py "second event") (py "user") two_tenants
              (exec (EpisodicStore.insert t1 (py "second event") (py "user")) two_tenants) 2)
    as (Hnew & _ & _).
  - apply two_tenants_episodic_ids.
  - vm_compute. reflexivity.
  - split; [vm_compute; reflexivity|]. split; [exact Hnew|]. vm_compute. reflexivity.
Defined.

Lemma episodic_delete_then_get_witness :
  fst (EpisodicStore.delete_by_id tenant_b 1 two_tenants) = Returned false
  /\ db (exec (EpisodicStore.delete_by_id tenant_b 1) two_tenants) = db two_tenants
  /\ ~ exists r, r ∈ episodic_memory (db two_tenants) /\ e_id r = 1
                 /\ e_agent_id r = tenant_b.
Proof.
  destruct (episodic_delete_then_get tenant_b 1 two_tenants
              (exec (EpisodicStore.delete_by_id tenant_b 1) two_tenants) false)
    as (Hiff & _ & Hsame); [vm_compute; reflexivity|].
  split; [vm_compute; reflexivity|]. split; [apply Hsame; reflexivity|].
  intros Hex. apply Hiff in Hex. discriminate.
Defined.

Lemma episodic_update_then_get_witness :
  fst (EpisodicStore.update_content t1 1 (py "I moved to Rome") two_tenants) = Returned true
  /\ exists r, r ∈ episodic_memory (db two_tenants) /\ e_id r = 1 /\ e_agent_id r = t1.
Proof.
  destruct (episodic_update_then_get t1 1 (py "I moved to Rome") two_tenants
              (exec (EpisodicStore.update_content t1 1 (py "I moved to Rome")) two_tenants)
              true)
    as (Hiff & _ & _); [vm_compute; reflexivity|].
  split; [vm_compute; reflexivity|]. apply Hiff. reflexivity.
Defined.

Lemma store_writes_keep_other_agents_witness :
  rows_of_agent tenant_b (db (exec (EpisodicStore.clear t1) two_tenants))
  = rows_of_agent tenant_b (db two_tenants).
Proof.
  destruct (store_writes_keep_other_agents t1 tenant_b two_tenants) as (_ & _ & _ & Hclear & _).
  - discriminate.
  - exact Hclear.
Defined.

Lemma get_by_ids_ignores_order_witness :
  SemanticStore.get_by_ids t1 [1; 2] two_tenants
  = SemanticStore.get_by_ids t1 [2; 1; 1] two_tenants.
Proof.
  destruct (get_by_ids_ignores_order t1 [1; 2] [2; 1; 1] two_tenants) as [Heq _].
  - intros i. rewrite !elem_of_cons, !elem_of_nil. tauto.
  - exact Heq.
Defined.


Lemma reads_are_scoped_and_read_only_witness :
  fst (MemoryManager.search_memories t1 (py "cats") two_tenants)
    = Returned [EpisodicItem 1 (content paris) (role paris) 1000;
                SemanticItem 1 (py "User loves cats") (py "{}") 1000]
  /\ Forall (item_of_agent (db two_tenants) t1)
       [EpisodicItem 1 (content paris) (role paris) 1000;
        SemanticItem 1 (py "User loves cats") (py "{}") 1000]
  /\ db (exec (MemoryManager.search_memories t1 (py "cats")) two_tenants) = db two_tenants.
Proof.
  destruct (reads_are_scoped_and_read_only t1 two_tenants) as [_ Hsearch].
  destruct (Hsearch (py "cats")) as (Hdb & _ & Hitems).
  split; [vm_compute; reflexivity|]. split; [|exact Hdb].
  apply Hitems. vm_compute. reflexivity.
Defined.

Lemma update_memory_content_writes_nothing_witness :
  MemoryManager.update_memory_content DefaultPolicy.policy t1 1 (py "User loves tea")
    semantic summary_indexed
  = (Raised EmbeddingFailure, summary_indexed).
Proof.
  destruct (update_memory_content_writes_nothing DefaultPolicy.policy t1 1
              (py "User loves tea") semantic summary_indexed) as (_ & _ & Hfail).
  apply Hfail; reflexivity.
Defined.

Lemma delete_memory_removes_row_and_key_witness :
  fst (MemoryManager.delete_memory t1 1 semantic summary_indexed) = Returned true
  /\ handle_of (exec (MemoryManager.delete_memory t1 1 semantic) summary_indexed)
       t1 semantic 1 = None
  /\ (forall h, id_to_key (vector_index
                  (exec (MemoryManager.delete_memory t1 1 semantic) summary_indexed)) !! h
                <> Some (py "t1:semantic:1")).
Proof.
  destruct (delete_memory_removes_row_and_key t1 1 semantic summary_indexed
              (exec (MemoryManager.delete_memory t1 1 semantic) summary_indexed)
              summary_indexed_reachable)
    as (_ & _ & _ & Hkey & Hlive); [vm_compute; reflexivity|].
  split; [vm_compute; reflexivity|]. split; [exact Hkey|exact Hlive].
Defined.

Lemma short_stop_words_never_match_witness :
  DefaultPolicy.should_store_as_episodic t1 hello = false
  /\ str_lower (strip (content hello)) = py "hello".
Proof.
  split; [|vm_compute; reflexivity].
  rewrite (short_stop_words_never_match t1 hello kernel_lower_length).
  vm_compute. reflexivity.
Defined.

Lemma core_memory_edits_compose_witness :
  CoreMemory.and_then (CoreMemory.append_to_block (py "persona") (py "I like tea") core)
    (CoreMemory.append_to_block (py "persona") (py "and cats"))
  = CoreMemory.append_to_block (py "persona") (py "I like tea" ++ [10%N] ++ py "and cats") core
  /\ CoreMemory.update_block (py "mood") (py "glad") core
     = CoreMemory.ValueError (py "Unknown block name: mood").
Proof.
  destruct (core_memory_edits_compose (py "persona") (py "I like tea") (py "and cats") core)
    as (Happ & _).
  destruct (core_memory_edits_compose (py "mood") (py "glad") [] core)
    as (_ & _ & _ & _ & _ & Hunknown).
  split; [exact Happ|]. apply Hunknown; discriminate.
Defined.

End MoreRuns.
